(** * sshpf: a port-forwarding-only SSH gateway

    A shallow embedding of [sshpf.go] (package [main]) and the properties of
    its payload decoder, destination check, key check and channel handlers.

    Conventions of the embedding:
    - a Go [[]byte] whose nil-ness the code inspects is an
      [option (list byte)], [None] being the nil slice;
    - a Go [string] is a sequence of bytes, here a [string] (a sequence of
      8-bit characters), converted with [string_of_list_byte];
    - a Go [int] is a [Z] (the code never leaves the range of a 32-bit
      integer); a [uint32] is a [Z] reduced modulo [2^32] after each
      operation;
    - indexing and slicing out of range panic in Go: they live in the
      [go] monad, whose second outcome is the panic;
    - what the outside world will answer (the payload and the requests of
      a channel, the outcome of a dial, the content of a file) is an
      argument of the function that meets it; the calls a function makes to
      the outside world (reject, accept, dial, reply, read, write, close)
      are recorded, in order, in the trace of the [io] monad, a [go]
      statement being one entry that holds the calls of its goroutine. *)

From Stdlib Require Import List ZArith NArith Bool String Ascii Lia DecimalString.
From Stdlib.Strings Require Import Byte.
Import ListNotations.

Local Open Scope Z_scope.

(** ** Go values *)

Module Go.

(** The [error] interface, by the package that produced the value. *)
Inductive error : Type :=
| errors_New (text : string)
| os_error (text : string)
| bufio_error (text : string)
| net_error (text : string)
| ssh_error (text : string).

(** Sequencing, shared by the two layers of effects below. *)
Class Monad (M : Type -> Type) : Type := {
  ret : forall {A : Type}, A -> M A;
  bind : forall {A B : Type}, M A -> (A -> M B) -> M B
}.

(** A computation that either returns or panics. *)
Inductive go (A : Type) : Type :=
| Ret (a : A)
| Panic (msg : string).

Arguments Ret {A} a.
Arguments Panic {A} msg.

#[export] Instance go_monad : Monad go := {
  ret := fun A a => Ret a;
  bind := fun A B m k =>
    match m with
    | Ret a => k a
    | Panic msg => Panic msg
    end
}.

Definition panics {A : Type} (m : go A) : bool :=
  match m with
  | Ret _ => false
  | Panic _ => true
  end.

(** [len(b)]; the length of the nil slice is 0. *)
Definition len (b : option (list byte)) : Z :=
  match b with
  | None => 0
  | Some l => Z.of_nat (List.length l)
  end.

(** [b == nil] *)
Definition is_nil (b : option (list byte)) : bool :=
  match b with
  | None => true
  | Some _ => false
  end.

(** [b[i]]: panics unless [0 <= i < len(b)]. *)
Definition index (b : option (list byte)) (i : Z) : go byte :=
  match b with
  | None => Panic "index out of range"
  | Some l =>
      if (0 <=? i) && (i <? Z.of_nat (List.length l))
      then match nth_error l (Z.to_nat i) with
           | Some x => Ret x
           | None => Panic "index out of range"
           end
      else Panic "index out of range"
  end.

(** [b[lo:hi]]: panics unless [0 <= lo <= hi <= len(b)].  Go allows [hi] up
    to the capacity; the capacity is taken to be the length, which only adds
    panics. *)
Definition slice (b : option (list byte)) (lo hi : Z) : go (list byte) :=
  if (0 <=? lo) && (lo <=? hi) && (hi <=? len b)
  then match b with
       | None => Ret []
       | Some l => Ret (firstn (Z.to_nat (hi - lo)) (skipn (Z.to_nat lo) l))
       end
  else Panic "slice bounds out of range".

(** [int(x)] and [uint32(x)] for a byte [x]. *)
Definition int_of_byte (x : byte) : Z := Z.of_N (Byte.to_N x).
Definition uint32_of_byte (x : byte) : Z := Z.of_N (Byte.to_N x).

(** [uint32] arithmetic wraps modulo [2^32]. *)
Definition wrap32 (z : Z) : Z := z mod 2 ^ 32.
Definition shl32 (x : Z) (n : Z) : Z := wrap32 (Z.shiftl x n).
Definition add32 (x y : Z) : Z := wrap32 (x + y).

(** [int(x)] for a [uint32] [x], [int] being 64 bits wide. *)
Definition int_of_uint32 (x : Z) : Z := x.

(** [string(b)] *)
Definition string_of_bytes (l : list byte) : string := string_of_list_byte l.

(** [strconv.Itoa]: the decimal form, with a leading [-] when negative. *)
Definition Itoa (i : Z) : string := NilZero.string_of_int (Z.to_int i).

(** [bytes.IndexByte(s, c) >= 0] on a string. *)
Fixpoint contains_byte (c : ascii) (s : string) : bool :=
  match s with
  | EmptyString => false
  | String a s' => if Ascii.eqb a c then true else contains_byte c s'
  end.

(** [net.JoinHostPort] of Go's standard library: [host:port], and
    [[host]:port] when [host] contains a colon (it is then taken for a
    literal IPv6 address). *)
Definition JoinHostPort (host port : string) : string :=
  if contains_byte ":"%char host
  then ("[" ++ host ++ "]:" ++ port)%string
  else (host ++ ":" ++ port)%string.

(** [bytes.Equal] *)
Fixpoint bytes_Equal (a b : list byte) : bool :=
  match a, b with
  | [], [] => true
  | x :: a', y :: b' => Byte.eqb x y && bytes_Equal a' b'
  | _, _ => false
  end.

(** [time.Second], in nanoseconds. *)
Definition Second : Z := 1000000000.

End Go.

Import Go.

Notation "x <- m ;; k" := (bind m (fun x => k))
  (at level 61, m at next level, right associativity).
Notation "' pat <- m ;; k" := (bind m (fun x => match x with pat => k end))
  (at level 61, pat pattern, m at next level, right associativity).
Notation "m ;;; k" := (bind m (fun _ => k))
  (at level 61, right associativity).

(** ** The payload decoder *)

Definition invalid_payload_size : error := errors_New "invalid payload size".

(** [decodeHostPortPayload] (sshpf.go, lines 181-195).  The results are named
    in the source: on the two early returns [host] and [port] keep their zero
    values. *)
Definition decodeHostPortPayload (b : option (list byte))
  : go (string * Z * option error) :=
  if is_nil b || (len b <? 4)
  then Ret (EmptyString, 0, Some invalid_payload_size)
  else
    b3 <- index b 3 ;;
    let slen := int_of_byte b3 in
    if len b <? 4 + slen + 2 + 2
    then Ret (EmptyString, 0, Some invalid_payload_size)
    else
      hs <- slice b 4 (4 + slen) ;;
      let host := string_of_bytes hs in
      hi <- index b (4 + slen + 2) ;;
      lo <- index b (4 + slen + 2 + 1) ;;
      let port := int_of_uint32 (add32 (shl32 (uint32_of_byte hi) 8) (uint32_of_byte lo)) in
      Ret (host, port, None).

(** ** Calls to the outside world *)

(** [ssh.RejectionReason] *)
Inductive RejectionReason : Type :=
| Prohibited
| ConnectionFailed
| UnknownChannelType
| ResourceShortage.

(** [ssh.Request]; the field [Type] is [Type_] here. *)
Record Request : Type := {
  Type_ : string;
  WantReply : bool;
  Payload : list byte
}.

(** The three byte streams a connection deals with: the accepted TCP
    connection of the client ([nConn]), an SSH channel to the client
    ([channel]) and the dialed socket ([rconn]). *)
Inductive endpoint : Type :=
| Transport
| Client
| Destination.

(** One call made by the program.  [EvGo t] is a [go] statement: it starts a
    goroutine whose own calls are, in its order, [t]; how they interleave
    with the calls of the other goroutines is not fixed. *)
#[warnings="-register-all"]
Inductive event : Type :=
| EvReject (reason : RejectionReason) (message : string)
| EvAccept
| EvDial (network address : string) (timeout : Z)
| EvReply (req : Request) (ok : bool)
| EvRead (from : endpoint) (data : list byte)
| EvWrite (to : endpoint) (data : list byte)
| EvClose (what : endpoint)
| EvGo (calls : list event).

(** A computation that makes calls: the calls made so far, and how it
    ended. *)
Record io (A : Type) : Type := IO {
  trace : list event;
  outcome : go A
}.

Arguments IO {A} trace outcome.
Arguments trace {A} i.
Arguments outcome {A} i.

#[export] Instance io_monad : Monad io := {
  ret := fun A a => IO [] (Ret a);
  bind := fun A B m k =>
    match outcome m with
    | Ret a => IO (trace m ++ trace (k a)) (outcome (k a))
    | Panic msg => IO (trace m) (Panic msg)
    end
}.

Definition emit (e : event) : io unit := IO [e] (Ret tt).

Definition lift {A : Type} (m : go A) : io A := IO [] m.

(** [defer d] before [body]: [d] runs when the function leaves, also by a
    panic. *)
Definition defer {A : Type} (d : io unit) (body : io A) : io A :=
  IO (trace body ++ trace d) (outcome body).

(** [go f(...)]: the results of [f] are dropped; a panic in a goroutine ends
    the program. *)
Definition go_ {A : Type} (f : io A) : io unit :=
  IO [EvGo (trace f)]
     (match outcome f with
      | Ret _ => Ret tt
      | Panic msg => Panic msg
      end).

(** What a byte stream will do when used: the chunks its successive reads
    return, the error of the read after them ([None] is [io.EOF]), the error
    of a write and of the close. *)
Record Stream : Type := {
  incoming : list (list byte);
  read_err : option error;
  write_err : list byte -> option error;
  close_err : option error
}.

(** [w.Write(data)] on an endpoint. *)
Definition Write_ (to : endpoint) (s : Stream) (data : list byte) : io (option error) :=
  emit (EvWrite to data) ;;; ret (write_err s data).

(** [ioutil.Discard.Write(data)]: succeeds and does nothing. *)
Definition Discard (data : list byte) : io (option error) := ret None.

(** [s.Close()] *)
Definition Close (what : endpoint) (s : Stream) : io unit :=
  emit (EvClose what).

(** The loop of [io.Copy(dst, src)] over the chunks [src] delivers: each is
    read, then written to [dst]; the first write error, or the read error
    that is not [io.EOF], ends the copy and is returned with the number of
    bytes written. *)
Fixpoint copy_loop (write : list byte -> io (option error)) (from : endpoint)
  (chunks : list (list byte)) (last : option error) (written : Z)
  : io (Z * option error) :=
  match chunks with
  | [] => ret (written, last)
  | data :: rest =>
      emit (EvRead from data) ;;;
      ew <- write data ;;
      match ew with
      | Some e => ret (written, Some e)
      | None => copy_loop write from rest last (written + Z.of_nat (List.length data))
      end
  end.

Definition io_Copy (write : list byte -> io (option error)) (from : endpoint) (src : Stream)
  : io (Z * option error) :=
  copy_loop write from (incoming src) (read_err src) 0.

(** [ssh.NewChannel]: the channel-open request of a client, with what its
    methods will return. *)
Record NewChannel : Type := {
  ChannelType : string;
  ExtraData : option (list byte);
  reject_err : option error;
  accept_err : option error;
  channel : Stream;
  requests : list Request
}.

(** [newChannel.Reject(reason, message)] *)
Definition Reject (newChannel : NewChannel) (reason : RejectionReason) (message : string)
  : io (option error) :=
  emit (EvReject reason message) ;;; ret (reject_err newChannel).

(** [newChannel.Accept()] *)
Definition Accept (newChannel : NewChannel) : io (Stream * list Request * option error) :=
  emit EvAccept ;;; ret (channel newChannel, requests newChannel, accept_err newChannel).

(** [req.Reply(ok, nil)] *)
Definition Reply (req : Request) (ok : bool) : io unit :=
  emit (EvReply req ok).

(** [ssh.DiscardRequests]: answers no to each request that wants a reply. *)
Fixpoint DiscardRequests (reqs : list Request) : io unit :=
  match reqs with
  | [] => ret tt
  | req :: rest =>
      (if WantReply req then Reply req false else ret tt) ;;;
      DiscardRequests rest
  end.

(** The network: what [net.DialTimeout] will return for an address. *)
Definition Network : Type := string -> Stream * option error.

(** [net.DialTimeout(network, address, timeout)] *)
Definition DialTimeout (net : Network) (network address : string) (timeout : Z)
  : io (Stream * option error) :=
  emit (EvDial network address timeout) ;;; ret (net address).

(** ** The channel handlers *)

(** The loop of [handleDial] over the allow-list (lines 105-109): [true] is
    the [goto dial]. *)
Fixpoint allowed_loop (addr : string) (allowedDestinations : list string) : bool :=
  match allowedDestinations with
  | [] => false
  | dest :: rest => if String.eqb addr dest then true else allowed_loop addr rest
  end.

(** The destination check of [handleDial] (lines 104-111): [true] when
    control reaches the label [dial]. *)
Definition destination_permitted (addr : string) (allowedDestinations : list string) : bool :=
  if 0 <? Z.of_nat (List.length allowedDestinations)
  then allowed_loop addr allowedDestinations
  else true.

(** [handleDial] (lines 98-127). *)
Definition handleDial (net : Network) (newChannel : NewChannel)
  (allowedDestinations : list string) : io (option error) :=
  ' (host, port, err) <- lift (decodeHostPortPayload (ExtraData newChannel)) ;;
  match err with
  | Some e => ret (Some e)
  | None =>
      let addr := JoinHostPort host (Itoa port) in
      if destination_permitted addr allowedDestinations
      then
        ' (rconn, err) <- DialTimeout net "tcp" addr (10 * Second) ;;
        match err with
        | Some _ => Reject newChannel ConnectionFailed "connection failed"
        | None =>
            defer (Close Destination rconn)
              (' (channel, requests, err) <- Accept newChannel ;;
               match err with
               | Some e => ret (Some e)
               | None =>
                   defer (Close Client channel)
                     (go_ (DiscardRequests requests) ;;;
                      go_ (io_Copy (Write_ Client channel) Destination rconn) ;;;
                      ' (_, err) <- io_Copy (Write_ Destination rconn) Client channel ;;
                      ret err)
               end)
        end
      else Reject newChannel Prohibited "connection to this address is prohibited"
  end.

(** The goroutine of [handleSession] (lines 135-139). *)
Fixpoint session_requests (reqs : list Request) : io unit :=
  match reqs with
  | [] => ret tt
  | req :: rest =>
      Reply req (String.eqb (Type_ req) "shell") ;;;
      session_requests rest
  end.

(** [handleSession] (lines 129-142). *)
Definition handleSession (newChannel : NewChannel) : io (option error) :=
  ' (channel, requests, err) <- Accept newChannel ;;
  match err with
  | Some e => ret (Some e)
  | None =>
      defer (Close Client channel)
        (go_ (session_requests requests) ;;;
         ' (_, err) <- io_Copy Discard Client channel ;;
         ret err)
  end.

(** What [ssh.NewServerConn] will return on an accepted connection: the
    error of the handshake, or the channel-open requests and the global
    requests of the client. *)
Record ServerConn : Type := {
  handshake_err : option error;
  chans : list NewChannel;
  reqs : list Request
}.

(** The loop of [handleConn] over the channel-open requests (lines 84-94). *)
Fixpoint serve_channels (net : Network) (chans : list NewChannel)
  (allowedDestinations : list string) : io unit :=
  match chans with
  | [] => ret tt
  | newChannel :: rest =>
      (if String.eqb (ChannelType newChannel) "session"
       then go_ (handleSession newChannel)
       else if String.eqb (ChannelType newChannel) "direct-tcpip"
       then go_ (handleDial net newChannel allowedDestinations)
       else Reject newChannel UnknownChannelType "unknown channel type" ;;; ret tt) ;;;
      serve_channels net rest allowedDestinations
  end.

(** [handleConn] (lines 77-96). *)
Definition handleConn (net : Network) (nConn : Stream) (conn : ServerConn)
  (allowedDestinations : list string) : io (option error) :=
  defer (Close Transport nConn)
    (match handshake_err conn with
     | Some e => ret (Some e)
     | None =>
         go_ (DiscardRequests (reqs conn)) ;;;
         serve_channels net (chans conn) allowedDestinations ;;;
         ret None
     end).

(** ** The key check *)

(** [ssh.PublicKey], as far as the program uses it. *)
Class PublicKey (K : Type) : Type := {
  Marshal : K -> list byte
}.

(** [ssh.Permissions]; the program only ever returns the nil pointer. *)
Record Permissions : Type := {
  CriticalOptions : list (string * string);
  Extensions : list (string * string)
}.

(** What [os.Open] and a [bufio.Scanner] over the file will return: the
    lines [Scan] stops at, then the error of [Err]. *)
Record File : Type := {
  lines : list (list byte);
  scan_err : option error
}.

Definition FileSystem : Type := string -> File + error.

Definition no_keys_matched : error := errors_New "no keys matched".

Section Auth.

Context {K : Type} `{PublicKey K}.

(** [ssh.ParseAuthorizedKey], of which only the key and the error are used. *)
Variable ParseAuthorizedKey : list byte -> K + error.

Variable ConnMetadata : Type.

(** The loop of [authChecker] over the scanned lines (lines 160-166). *)
Fixpoint scan_keys (ls : list (list byte)) (pkeys : list (list byte))
  : list (list byte) + error :=
  match ls with
  | [] => inl pkeys
  | line :: rest =>
      match ParseAuthorizedKey line with
      | inr err => inr err
      | inl pk => scan_keys rest (pkeys ++ [Marshal pk])
      end
  end.

(** The loop of the returned function over [pkeys] (lines 172-176). *)
Fixpoint key_loop (keyBytes : list byte) (pkeys : list (list byte)) : bool :=
  match pkeys with
  | [] => false
  | k :: rest => if bytes_Equal keyBytes k then true else key_loop keyBytes rest
  end.

(** The function [authChecker] returns (lines 170-178). *)
Definition check_key (pkeys : list (list byte)) (conn : ConnMetadata) (key : K)
  : option Permissions * option error :=
  let keyBytes := Marshal key in
  if key_loop keyBytes pkeys
  then (None, None)
  else (None, Some no_keys_matched).

(** [authChecker] (lines 152-179). *)
Definition authChecker (fs : FileSystem) (name : string)
  : option (ConnMetadata -> K -> option Permissions * option error) * option error :=
  match fs name with
  | inr err => (None, Some err)
  | inl f =>
      match scan_keys (lines f) [] with
      | inr err => (None, Some err)
      | inl pkeys =>
          match scan_err f with
          | Some err => (None, Some err)
          | None => (Some (check_key pkeys), None)
          end
      end
  end.

End Auth.

(** ** Definitions used to state the properties *)

(** The byte of value [z mod 256]. *)
Definition byte_of_Z (z : Z) : byte :=
  match Byte.of_N (Z.to_N (z mod 256)) with
  | Some x => x
  | None => x00
  end.

(** The [uint32] of RFC 4251: four bytes, the most significant first. *)
Definition uint32_bytes (z : Z) : list byte :=
  [byte_of_Z (z / 2 ^ 24); byte_of_Z (z / 2 ^ 16); byte_of_Z (z / 2 ^ 8); byte_of_Z z].

(** The value of a [uint32] read from its four bytes. *)
Definition uint32_value (l : list byte) : Z :=
  match l with
  | [b0; b1; b2; b3] =>
      int_of_byte b0 * 2 ^ 24 + int_of_byte b1 * 2 ^ 16 + int_of_byte b2 * 2 ^ 8 + int_of_byte b3
  | _ => 0
  end.

(** The payload of a direct-tcpip channel open as RFC 4254, section 7.2,
    lays it out: the host to connect to as a length-prefixed string, the
    port to connect to, then the originator fields [rest]. *)
Definition direct_tcpip_payload (h : string) (p : Z) (rest : list byte) : list byte :=
  uint32_bytes (Z.of_nat (String.length h)) ++ list_byte_of_string h ++ uint32_bytes p ++ rest.

(** [l] with the byte at index [i] replaced by [x]; [l] itself when [i] is
    out of range. *)
Fixpoint update (i : nat) (x : byte) (l : list byte) {struct l} : list byte :=
  match l, i with
  | [], _ => []
  | _ :: l', O => x :: l'
  | y :: l', S i' => y :: update i' x l'
  end.

(** [l] with bit [i mod 8] of the byte at index [i / 8] inverted. *)
Definition flip_byte (j : nat) (x : byte) : byte :=
  byte_of_Z (Z.lxor (int_of_byte x) (2 ^ Z.of_nat (j mod 8))).

Fixpoint flip_bit (i : nat) (l : list byte) : list byte :=
  match l with
  | [] => []
  | x :: l' => if (i <? 8)%nat then flip_byte i x :: l' else x :: flip_bit (i - 8) l'
  end.

(** The calls of a trace together with those of the goroutines it
    started. *)
Fixpoint calls_of (e : event) : list event :=
  match e with
  | EvGo t => e :: flat_map calls_of t
  | _ => [e]
  end.

Definition all_calls (t : list event) : list event := flat_map calls_of t.

Definition is_dial (e : event) : bool :=
  match e with
  | EvDial _ _ _ => true
  | _ => false
  end.

Definition is_write (e : event) : bool :=
  match e with
  | EvWrite _ _ => true
  | _ => false
  end.

(** The calls a session handler may make: accepting the channel, starting
    its goroutine, replying to a request, reading from the client and
    closing the channel. *)
Definition is_session_call (e : event) : bool :=
  match e with
  | EvAccept | EvGo _ | EvReply _ _ | EvRead Client _ | EvClose Client => true
  | _ => false
  end.

(** The reply the session goroutine makes to a request. *)
Definition session_reply (req : Request) : event :=
  EvReply req (String.eqb (Type_ req) "shell").

(** Keys given by their marshaled form, and a parser that takes every
    line but the empty one for such a key: the instance the examples of the
    key check run on. *)
Definition raw_key : PublicKey (list byte) := {| Marshal := fun k => k |}.

Definition parse_raw_key (line : list byte) : list byte + error :=
  match line with
  | [] => inr (ssh_error "ssh: no key found")
  | _ => inl line
  end.

(** The host length the decoder reads: the byte at index 3. *)
Definition length_byte (b3 : byte) : nat := N.to_nat (Byte.to_N b3).

(** ** Loading the allow-list *)

(** The test of [loadDestinations] on a scanned line (line 206):
    [len(b) == 0 || b[0] == '#'].  The index is taken only when the first
    test fails. *)
Definition skip_line (b : list byte) : go bool :=
  if len (Some b) =? 0
  then Ret true
  else b0 <- index (Some b) 0 ;; Ret (Byte.eqb b0 "#"%byte).

(** The loop of [loadDestinations] over the scanned lines (lines 205-210);
    [scanner.Text()] is the line as a string. *)
Fixpoint scan_destinations (ls : list (list byte)) (out : list string) : go (list string) :=
  match ls with
  | [] => Ret out
  | b :: rest =>
      skip <- skip_line b ;;
      if (skip : bool)
      then scan_destinations rest out
      else scan_destinations rest (out ++ [string_of_bytes b])
  end.

(** [loadDestinations] (lines 197-212).  The list is returned together with
    the error of the scanner. *)
Definition loadDestinations (fs : FileSystem) (name : string)
  : go (list string * option error) :=
  match fs name with
  | inr err => Ret ([], Some err)
  | inl f =>
      out <- scan_destinations (lines f) [] ;;
      Ret (out, scan_err f)
  end.

(** ** Starting the server *)

(** [runArgs] (lines 34-39). *)
Record runArgs : Type := {
  AuthKeysFile : string;
  HostKeyFile : string;
  Addr : string;
  Destinations : string
}.

(** The arguments [main] starts from (lines 23-27). *)
Definition default_args : runArgs :=
  {| AuthKeysFile := "authorized_keys";
     HostKeyFile := "id_rsa";
     Addr := "localhost:2022";
     Destinations := "" |}.

(** What [run] does towards the operating system: [net.Listen], one
    [ln.Accept()], one [go handleConn(...)] with the calls of that goroutine,
    and the deferred [ln.Close()]. *)
Inductive run_event : Type :=
| RunListen (network address : string)
| RunAccept
| RunGo (calls : list event)
| RunCloseListener.

(** How [run] ended: it returned an error, it is waiting in [ln.Accept()]
    (the answers of the listener given to the model are used up), or a
    goroutine panicked. *)
Inductive run_result : Type :=
| Returned (err : error)
| Waiting
| Crashed (msg : string).

Section Run.

Context {K : Type} `{PublicKey K}.
Variable ParseAuthorizedKey : list byte -> K + error.
Variable ConnMetadata : Type.

(** [ssh.Signer] and [ssh.ParsePrivateKey]. *)
Variable Signer : Type.
Variable ParsePrivateKey : list byte -> Signer + error.

(** [ssh.ServerConfig], as far as [run] fills it; a function value may be
    nil. *)
Record ServerConfig : Type := {
  PublicKeyCallback : option (ConnMetadata -> K -> option Permissions * option error);
  ServerVersion : string;
  hostKeys : list Signer
}.

(** What the operating system will answer to [run]: the files read line by
    line, the files read whole ([ioutil.ReadFile]), [net.Listen], the
    successive results of [ln.Accept()] (a connection, with the outcome of
    the handshake [ssh.NewServerConn] runs on it under a configuration, or
    an error), and the network the handlers dial into. *)
Record World : Type := {
  files : FileSystem;
  read_file : string -> list byte + error;
  listen : string -> option error;
  accepts : list (Stream * (ServerConfig -> ServerConn) + error);
  network : Network
}.

(** [loadHostKey] (lines 144-150). *)
Definition loadHostKey (w : World) (name : string) : Signer + error :=
  match read_file w name with
  | inr err => inr err
  | inl privateBytes => ParsePrivateKey privateBytes
  end.

(** The loop of [run] over the results of [ln.Accept()] (lines 68-74). *)
Fixpoint accept_loop (net : Network) (config : ServerConfig) (destinations : list string)
  (results : list (Stream * (ServerConfig -> ServerConn) + error))
  : list run_event * run_result :=
  match results with
  | [] => ([RunAccept], Waiting)
  | inr err :: _ => ([RunAccept], Returned err)
  | inl (conn, handshake) :: rest =>
      let h := handleConn net conn (handshake config) destinations in
      match outcome h with
      | Panic msg => ([RunAccept; RunGo (trace h)], Crashed msg)
      | Ret _ =>
          let (t, r) := accept_loop net config destinations rest in
          (RunAccept :: RunGo (trace h) :: t, r)
      end
  end.

(** The part of [run] from [net.Listen] on (lines 63-74); the listener is
    closed when [run] returns. *)
Definition serve (w : World) (args : runArgs) (config : ServerConfig)
  (destinations : list string) : list run_event * run_result :=
  match listen w (Addr args) with
  | Some err => ([RunListen "tcp" (Addr args)], Returned err)
  | None =>
      let (t, r) := accept_loop (network w) config destinations (accepts w) in
      match r with
      | Returned _ => (RunListen "tcp" (Addr args) :: t ++ [RunCloseListener], r)
      | _ => (RunListen "tcp" (Addr args) :: t, r)
      end
  end.

(** [run] (lines 41-75). *)
Definition run (w : World) (args : runArgs) : list run_event * run_result :=
  match authChecker ParseAuthorizedKey ConnMetadata (files w) (AuthKeysFile args) with
  | (_, Some err) => ([], Returned err)
  | (auth, None) =>
      match loadHostKey w (HostKeyFile args) with
      | inr err => ([], Returned err)
      | inl hostKey =>
          let config := {| PublicKeyCallback := auth;
                           ServerVersion := "SSH-2.0-generic";
                           hostKeys := [hostKey] |} in
          if String.eqb (Destinations args) ""
          then serve w args config []
          else
            match loadDestinations (files w) (Destinations args) with
            | Panic msg => ([], Crashed msg)
            | Ret (_, Some err) => ([], Returned err)
            | Ret (ss, None) => serve w args config ss
            end
      end
  end.

End Run.

Arguments files {K ConnMetadata Signer} w.
Arguments read_file {K ConnMetadata Signer} w.
Arguments listen {K ConnMetadata Signer} w.
Arguments accepts {K ConnMetadata Signer} w.
Arguments network {K ConnMetadata Signer} w.

(** ** More definitions used to state the properties *)

(** A line [loadDestinations] keeps: not empty, and not starting with [#]. *)
Definition entry_line (b : list byte) : bool :=
  match b with
  | [] => false
  | b0 :: _ => negb (Byte.eqb b0 "#"%byte)
  end.

(** The data of the writes to an endpoint, in order. *)
Fixpoint writes_to (to : endpoint) (t : list event) : list (list byte) :=
  match t with
  | [] => []
  | EvWrite Client data :: t' =>
      match to with Client => data :: writes_to to t' | _ => writes_to to t' end
  | EvWrite Destination data :: t' =>
      match to with Destination => data :: writes_to to t' | _ => writes_to to t' end
  | EvWrite Transport data :: t' =>
      match to with Transport => data :: writes_to to t' | _ => writes_to to t' end
  | _ :: t' => writes_to to t'
  end.

(** The calls of a relay: a reply to a request, a read, a write. *)
Definition is_relay_call (e : event) : bool :=
  match e with
  | EvReply _ _ | EvRead _ _ | EvWrite _ _ => true
  | _ => false
  end.

Definition is_close (e : event) : bool :=
  match e with
  | EvClose _ => true
  | _ => false
  end.

Definition is_go (e : run_event) : bool :=
  match e with
  | RunGo _ => true
  | _ => false
  end.

(** An answer to a channel open: the accept or a rejection. *)
Definition is_answer (e : event) : bool :=
  match e with
  | EvAccept | EvReject _ _ => true
  | _ => false
  end.

(** A dial, if the call is one, is over TCP, with the ten-second timeout,
    to an address the allow-list permits. *)
Definition dial_permitted (allowedDestinations : list string) (e : event) : bool :=
  match e with
  | EvDial network address timeout =>
      String.eqb network "tcp" && (timeout =? 10000000000)
      && destination_permitted address allowedDestinations
  | _ => true
  end.

(** The entry the loop of [handleConn] adds to its trace for one channel
    open. *)
Definition dispatch (net : Network) (allowedDestinations : list string)
  (newChannel : NewChannel) : event :=
  if String.eqb (ChannelType newChannel) "session"
  then EvGo (trace (handleSession newChannel))
  else if String.eqb (ChannelType newChannel) "direct-tcpip"
  then EvGo (trace (handleDial net newChannel allowedDestinations))
  else EvReject UnknownChannelType "unknown channel type".

(** The calls of the goroutines [run] started. *)
Fixpoint served_calls (t : list run_event) : list event :=
  match t with
  | [] => []
  | RunGo calls :: t' => all_calls calls ++ served_calls t'
  | _ :: t' => served_calls t'
  end.

Definition is_listen (e : run_event) : bool :=
  match e with
  | RunListen _ _ => true
  | _ => false
  end.

(** ** The payload decoder: properties *)

Lemma byte_of_Z_value (z : Z) : int_of_byte (byte_of_Z z) = z mod 256.
Proof.
  unfold int_of_byte, byte_of_Z.
  assert (Hb : 0 <= z mod 256 < 256) by (apply Z.mod_pos_bound; lia).
  destruct (Byte.of_N (Z.to_N (z mod 256))) as [x|] eqn:E.
  - apply Byte.to_of_N in E. rewrite E. lia.
  - apply Byte.of_N_None_iff in E. lia.
Qed.

Lemma int_of_byte_bounds (x : byte) : 0 <= int_of_byte x <= 255.
Proof.
  unfold int_of_byte. pose proof (Byte.to_N_bounded x). lia.
Qed.

Lemma index_Some (l : list byte) (i : nat) (x : byte) :
  nth_error l i = Some x -> index (Some l) (Z.of_nat i) = Ret x.
Proof.
  intros E. unfold index.
  assert (Hi : (i < List.length l)%nat) by (apply nth_error_Some; congruence).
  replace (0 <=? Z.of_nat i) with true by (symmetry; apply Z.leb_le; lia).
  replace (Z.of_nat i <? Z.of_nat (List.length l)) with true
    by (symmetry; apply Z.ltb_lt; lia).
  simpl. rewrite Nat2Z.id, E. reflexivity.
Qed.

Lemma slice_Some (l : list byte) (lo n : nat) :
  (lo + n <= List.length l)%nat ->
  slice (Some l) (Z.of_nat lo) (Z.of_nat lo + Z.of_nat n) = Ret (firstn n (skipn lo l)).
Proof.
  intros Hn. unfold slice, len.
  replace (0 <=? Z.of_nat lo) with true by (symmetry; apply Z.leb_le; lia).
  replace (Z.of_nat lo <=? Z.of_nat lo + Z.of_nat n) with true
    by (symmetry; apply Z.leb_le; lia).
  replace (Z.of_nat lo + Z.of_nat n <=? Z.of_nat (List.length l)) with true
    by (symmetry; apply Z.leb_le; lia).
  simpl. rewrite Nat2Z.id.
  replace (Z.to_nat (Z.of_nat lo + Z.of_nat n - Z.of_nat lo)) with n by lia.
  reflexivity.
Qed.

Lemma int_of_length_byte (b3 : byte) : int_of_byte b3 = Z.of_nat (length_byte b3).
Proof. unfold int_of_byte, length_byte. lia. Qed.

Lemma port_of_bytes (hi lo : byte) :
  int_of_uint32 (add32 (shl32 (uint32_of_byte hi) 8) (uint32_of_byte lo))
  = 256 * int_of_byte hi + int_of_byte lo.
Proof.
  unfold int_of_uint32, add32, shl32, wrap32, uint32_of_byte.
  fold (int_of_byte hi). fold (int_of_byte lo).
  pose proof (int_of_byte_bounds hi). pose proof (int_of_byte_bounds lo).
  rewrite Z.shiftl_mul_pow2 by lia.
  change (2 ^ 8) with 256. change (2 ^ 32) with 4294967296.
  rewrite (Z.mod_small (int_of_byte hi * 256)) by lia.
  rewrite Z.mod_small by lia. lia.
Qed.

(** The decoder on a buffer too short for the length field. *)
Lemma decode_short (b : option (list byte)) :
  len b < 4 -> decodeHostPortPayload b = Ret (EmptyString, 0, Some invalid_payload_size).
Proof.
  intros Hl. unfold decodeHostPortPayload.
  apply Z.ltb_lt in Hl. rewrite Hl, orb_true_r. reflexivity.
Qed.

(** The decoder on a buffer too short for the host and the port. *)
Lemma decode_truncated (l : list byte) (b3 : byte) :
  nth_error l 3 = Some b3 ->
  (List.length l < 4 + length_byte b3 + 4)%nat ->
  decodeHostPortPayload (Some l) = Ret (EmptyString, 0, Some invalid_payload_size).
Proof.
  intros E3 Hl. unfold decodeHostPortPayload.
  assert (H3 : (3 < List.length l)%nat) by (apply nth_error_Some; congruence).
  simpl is_nil. simpl len.
  replace (Z.of_nat (List.length l) <? 4) with false by (symmetry; apply Z.ltb_ge; lia).
  simpl orb. cbv iota.
  assert (I3 : index (Some l) 3 = Ret b3) by exact (index_Some l 3 b3 E3).
  rewrite I3. cbn [bind go_monad].
  rewrite int_of_length_byte.
  replace (Z.of_nat (List.length l) <? 4 + Z.of_nat (length_byte b3) + 2 + 2) with true
    by (symmetry; apply Z.ltb_lt; lia).
  reflexivity.
Qed.

(** The decoder on a buffer long enough. *)
Lemma decode_long (l : list byte) (b3 : byte) :
  nth_error l 3 = Some b3 ->
  (4 + length_byte b3 + 4 <= List.length l)%nat ->
  exists hi lo : byte,
    nth_error l (4 + length_byte b3 + 2) = Some hi /\
    nth_error l (4 + length_byte b3 + 3) = Some lo /\
    decodeHostPortPayload (Some l)
    = Ret (string_of_list_byte (firstn (length_byte b3) (skipn 4 l)),
           256 * int_of_byte hi + int_of_byte lo, None).
Proof.
  intros E3 Hl.
  destruct (nth_error l (4 + length_byte b3 + 2)) as [hi|] eqn:Ehi;
    [| apply nth_error_None in Ehi; lia].
  destruct (nth_error l (4 + length_byte b3 + 3)) as [lo|] eqn:Elo;
    [| apply nth_error_None in Elo; lia].
  exists hi, lo. split; [reflexivity|]. split; [reflexivity|].
  unfold decodeHostPortPayload.
  simpl is_nil. simpl len.
  replace (Z.of_nat (List.length l) <? 4) with false by (symmetry; apply Z.ltb_ge; lia).
  simpl orb. cbv iota.
  assert (I3 : index (Some l) 3 = Ret b3) by exact (index_Some l 3 b3 E3).
  rewrite I3. cbn [bind go_monad].
  rewrite int_of_length_byte.
  replace (Z.of_nat (List.length l) <? 4 + Z.of_nat (length_byte b3) + 2 + 2) with false
    by (symmetry; apply Z.ltb_ge; lia).
  assert (Ih : slice (Some l) 4 (4 + Z.of_nat (length_byte b3))
               = Ret (firstn (length_byte b3) (skipn 4 l)))
    by (apply (slice_Some l 4); lia).
  rewrite Ih. cbn [bind go_monad].
  replace (4 + Z.of_nat (length_byte b3) + 2)
    with (Z.of_nat (4 + length_byte b3 + 2)) by lia.
  rewrite (index_Some _ _ _ Ehi). cbn [bind go_monad].
  replace (Z.of_nat (4 + length_byte b3 + 2) + 1)
    with (Z.of_nat (4 + length_byte b3 + 3)) by lia.
  rewrite (index_Some _ _ _ Elo). cbn [bind go_monad].
  rewrite port_of_bytes. reflexivity.
Qed.

Lemma length_list_byte_of_string (s : string) :
  List.length (list_byte_of_string s) = String.length s.
Proof.
  unfold list_byte_of_string. rewrite length_map.
  induction s as [|a s IH]; simpl; [reflexivity | now rewrite IH].
Qed.

Lemma length_byte_of_Z (n : nat) :
  (n <= 255)%nat -> length_byte (byte_of_Z (Z.of_nat n)) = n.
Proof.
  intros Hn. pose proof (byte_of_Z_value (Z.of_nat n)) as E.
  rewrite int_of_length_byte in E. rewrite Z.mod_small in E by lia. lia.
Qed.

Lemma nth_error_port_field (h : string) (p : Z) (rest : list byte) (k : nat) :
  (k < 4)%nat ->
  nth_error (direct_tcpip_payload h p rest) (4 + String.length h + k)
  = nth_error (uint32_bytes p) k.
Proof.
  intros Hk. unfold direct_tcpip_payload.
  change (uint32_bytes (Z.of_nat (String.length h)) ++ ?t)
    with (byte_of_Z (Z.of_nat (String.length h) / 2 ^ 24)
          :: byte_of_Z (Z.of_nat (String.length h) / 2 ^ 16)
          :: byte_of_Z (Z.of_nat (String.length h) / 2 ^ 8)
          :: byte_of_Z (Z.of_nat (String.length h)) :: t).
  cbn [Nat.add nth_error].
  rewrite nth_error_app2 by (rewrite length_list_byte_of_string; lia).
  rewrite length_list_byte_of_string.
  replace (String.length h + k - String.length h)%nat with k by lia.
  apply nth_error_app1. simpl. exact Hk.
Qed.

Lemma host_of_payload (h : string) (p : Z) (rest : list byte) :
  firstn (String.length h) (skipn 4 (direct_tcpip_payload h p rest))
  = list_byte_of_string h.
Proof.
  unfold direct_tcpip_payload. cbn [uint32_bytes app skipn].
  rewrite firstn_app, length_list_byte_of_string, Nat.sub_diag.
  rewrite <- (length_list_byte_of_string h) at 1.
  rewrite firstn_all. cbn [firstn]. apply app_nil_r.
Qed.

Lemma length_payload (h : string) (p : Z) (rest : list byte) :
  List.length (direct_tcpip_payload h p rest)
  = (4 + String.length h + 4 + List.length rest)%nat.
Proof.
  unfold direct_tcpip_payload.
  rewrite !length_app, length_list_byte_of_string. simpl. lia.
Qed.

Lemma port_of_low_bytes (p : Z) :
  0 <= p <= 65535 ->
  256 * int_of_byte (byte_of_Z (p / 2 ^ 8)) + int_of_byte (byte_of_Z p) = p.
Proof.
  intros Hp. rewrite !byte_of_Z_value. change (2 ^ 8) with 256.
  assert (Hq : 0 <= p / 256 < 256)
    by (split; [apply Z.div_pos; lia | apply Z.div_lt_upper_bound; lia]).
  rewrite (Z.mod_small (p / 256)) by exact Hq.
  pose proof (Z.div_mod p 256). lia.
Qed.

(** A buffer whose length field holds a value of at most 255 carries that
    value in the byte at index 3. *)
Lemma length_field_low_byte (l : list byte) (L : Z) :
  (4 <= List.length l)%nat ->
  uint32_value (firstn 4 l) = L -> L <= 255 ->
  exists b3, nth_error l 3 = Some b3 /\ Z.of_nat (length_byte b3) = L.
Proof.
  intros Hl E HL.
  destruct l as [|b0 [|b1 [|b2 [|b3 t]]]]; simpl in Hl; try lia.
  exists b3. split; [reflexivity|].
  cbn [firstn uint32_value] in E.
  pose proof (int_of_byte_bounds b0). pose proof (int_of_byte_bounds b1).
  pose proof (int_of_byte_bounds b2). pose proof (int_of_byte_bounds b3).
  rewrite <- int_of_length_byte.
  change (2 ^ 24) with 16777216 in E. change (2 ^ 16) with 65536 in E.
  change (2 ^ 8) with 256 in E. lia.
Qed.

(** C3. A well-formed direct-tcpip payload (RFC 4254, section 7.2: the host
    as a string with a four-byte big-endian length, the port as four
    big-endian bytes, then the originator fields) whose host [h] has at most
    255 bytes and whose port [p] is within 0..65535 decodes to exactly
    [(h, p)] with no error.  A buffer that is nil, shorter than 4 bytes, or,
    its length field holding [L <= 255], shorter than [4 + L + 4] bytes,
    decodes to the error [invalid payload size]. *)
Theorem decodeHostPortPayload_well_formed :
  (forall (h : string) (p : Z) (rest : list byte),
      (String.length h <= 255)%nat -> 0 <= p <= 65535 ->
      decodeHostPortPayload (Some (direct_tcpip_payload h p rest)) = Ret (h, p, None))
  /\ decodeHostPortPayload None = Ret (EmptyString, 0, Some invalid_payload_size)
  /\ (forall l : list byte,
         (List.length l < 4)%nat ->
         decodeHostPortPayload (Some l) = Ret (EmptyString, 0, Some invalid_payload_size))
  /\ (forall (l : list byte) (L : Z),
         uint32_value (firstn 4 l) = L -> L <= 255 ->
         Z.of_nat (List.length l) < 4 + L + 4 ->
         decodeHostPortPayload (Some l) = Ret (EmptyString, 0, Some invalid_payload_size)).
Proof.
  split; [| split; [| split]].
  - intros h p rest Hh Hp.
    set (l := direct_tcpip_payload h p rest).
    assert (E3 : nth_error l 3 = Some (byte_of_Z (Z.of_nat (String.length h))))
      by reflexivity.
    pose proof (length_byte_of_Z _ Hh) as En.
    destruct (decode_long l _ E3) as (hi & lo & Ehi & Elo & D).
    { rewrite En. unfold l. rewrite length_payload. lia. }
    rewrite En in Ehi, Elo, D. unfold l in Ehi, Elo.
    rewrite nth_error_port_field in Ehi by lia.
    rewrite nth_error_port_field in Elo by lia.
    cbn [uint32_bytes nth_error] in Ehi, Elo.
    injection Ehi as <-. injection Elo as <-.
    rewrite D. unfold l. rewrite host_of_payload, string_of_list_byte_of_string.
    rewrite port_of_low_bytes by exact Hp. reflexivity.
  - reflexivity.
  - intros l Hl. apply decode_short. simpl. lia.
  - intros l L E HL Hlen.
    destruct (Nat.lt_ge_cases (List.length l) 4) as [Hs | Hs].
    + apply decode_short. simpl. lia.
    + destruct (length_field_low_byte l L Hs E HL) as (b3 & E3 & En).
      apply (decode_truncated l b3 E3). lia.
Qed.

(** The decoder takes the host length from the byte at index 3 alone: a
    buffer whose length field holds 256 is read as one with an empty host. *)
Example decodeHostPortPayload_length_byte :
  uint32_value [x00; x00; x01; x00] = 256
  /\ decodeHostPortPayload (Some [x00; x00; x01; x00; x61; x62; x00; x50])
     = Ret (EmptyString, 80, None).
Proof. split; reflexivity. Qed.

(** The well-formed payload for host [10.0.0.5] and port 443 decodes to that
    pair, and loses it when its last byte is cut off. *)
Lemma decodeHostPortPayload_well_formed_witness :
  decodeHostPortPayload (Some (direct_tcpip_payload "10.0.0.5" 443 [])) = Ret ("10.0.0.5"%string, 443, None)
  /\ decodeHostPortPayload (Some (removelast (direct_tcpip_payload "10.0.0.5" 443 [])))
     = Ret (EmptyString, 0, Some invalid_payload_size).
Proof.
  split.
  - apply (proj1 decodeHostPortPayload_well_formed); simpl; lia.
  - apply (proj2 (proj2 (proj2 decodeHostPortPayload_well_formed)) _ 8);
      [reflexivity | lia | simpl; lia].
Defined.

Lemma length_update (i : nat) (x : byte) (l : list byte) :
  List.length (update i x l) = List.length l.
Proof.
  revert i. induction l as [|y l IH]; intros [|i]; simpl; auto.
Qed.

Lemma nth_error_update_other (i j : nat) (x : byte) (l : list byte) :
  i <> j -> nth_error (update i x l) j = nth_error l j.
Proof.
  revert i j. induction l as [|y l IH]; intros [|i] [|j] Hij; simpl;
    try reflexivity; try contradiction.
  apply IH. intros ->. apply Hij. reflexivity.
Qed.

Lemma firstn_update (n i : nat) (x : byte) (l : list byte) :
  (n <= i)%nat -> firstn n (update i x l) = firstn n l.
Proof.
  revert n i. induction l as [|y l IH]; intros [|n] [|i] Hn; simpl; auto; try lia.
  f_equal. apply IH. lia.
Qed.

Lemma skipn_update (k i : nat) (x : byte) (l : list byte) :
  (k <= i)%nat -> skipn k (update i x l) = update (i - k) x (skipn k l).
Proof.
  revert k i. induction l as [|y l IH]; intros [|k] [|i] Hk; simpl; auto; try lia.
  apply IH. lia.
Qed.

(** The decoder never panics: its indices and its slice are in range. *)
Lemma decode_no_panic (b : option (list byte)) :
  panics (decodeHostPortPayload b) = false.
Proof.
  destruct b as [l|]; [| reflexivity].
  destruct (Nat.lt_ge_cases (List.length l) 4) as [Hs | Hs].
  - rewrite decode_short by (simpl; lia). reflexivity.
  - destruct (nth_error l 3) as [b3|] eqn:E3; [| apply nth_error_None in E3; lia].
    destruct (Nat.lt_ge_cases (List.length l) (4 + length_byte b3 + 4)) as [Ht | Ht].
    + rewrite (decode_truncated l b3 E3 Ht). reflexivity.
    + destruct (decode_long l b3 E3 Ht) as (hi & lo & _ & _ & D).
      rewrite D. reflexivity.
Qed.

(** The port the decoder returns is a 16-bit value. *)
Lemma decode_port_range (b : option (list byte)) (host : string) (port : Z)
  (err : option error) :
  decodeHostPortPayload b = Ret (host, port, err) -> 0 <= port <= 65535.
Proof.
  destruct b as [l|]; [| intros E; inversion E; lia].
  destruct (Nat.lt_ge_cases (List.length l) 4) as [Hs | Hs].
  - rewrite decode_short by (simpl; lia). intros E. inversion E. lia.
  - destruct (nth_error l 3) as [b3|] eqn:E3; [| apply nth_error_None in E3; lia].
    destruct (Nat.lt_ge_cases (List.length l) (4 + length_byte b3 + 4)) as [Ht | Ht].
    + rewrite (decode_truncated l b3 E3 Ht). intros E. inversion E. lia.
    + destruct (decode_long l b3 E3 Ht) as (hi & lo & _ & _ & D).
      rewrite D. intros E.
      assert (Hp : port = 256 * int_of_byte hi + int_of_byte lo) by congruence.
      pose proof (int_of_byte_bounds hi). pose proof (int_of_byte_bounds lo). lia.
Qed.

(** The first two bytes of the port field do not reach the result. *)
Lemma decode_ignores_high_port_bytes (l : list byte) (b3 x : byte) (k : nat) :
  nth_error l 3 = Some b3 -> (k < 2)%nat ->
  decodeHostPortPayload (Some (update (4 + length_byte b3 + k) x l))
  = decodeHostPortPayload (Some l).
Proof.
  intros E3 Hk.
  set (i := (4 + length_byte b3 + k)%nat).
  assert (E3' : nth_error (update i x l) 3 = Some b3)
    by (rewrite nth_error_update_other by (unfold i; lia); exact E3).
  destruct (Nat.lt_ge_cases (List.length l) (4 + length_byte b3 + 4)) as [Ht | Ht].
  - rewrite (decode_truncated l b3 E3 Ht).
    apply (decode_truncated _ b3 E3'). rewrite length_update. exact Ht.
  - destruct (decode_long l b3 E3 Ht) as (hi & lo & Ehi & Elo & D).
    destruct (decode_long (update i x l) b3 E3') as (hi' & lo' & Ehi' & Elo' & D').
    { rewrite length_update. exact Ht. }
    rewrite nth_error_update_other in Ehi' by (unfold i; lia).
    rewrite nth_error_update_other in Elo' by (unfold i; lia).
    assert (hi' = hi) as -> by congruence.
    assert (lo' = lo) as -> by congruence.
    rewrite D, D'.
    rewrite skipn_update by (unfold i; lia).
    rewrite firstn_update by (unfold i; lia).
    reflexivity.
Qed.

(** C10. On every buffer, of any length and content, the decoder returns
    without a panic: each index and the slice it takes lie within the buffer
    once its two length checks have passed.  The port it returns is within
    0..65535: it is 256 times the third byte of the port field plus the
    fourth, and replacing either of the first two bytes of that field leaves
    the result unchanged. *)
Theorem decodeHostPortPayload_total (b : option (list byte)) :
  panics (decodeHostPortPayload b) = false
  /\ (forall (host : string) (port : Z) (err : option error),
         decodeHostPortPayload b = Ret (host, port, err) -> 0 <= port <= 65535)
  /\ (forall (l : list byte) (b3 : byte),
         b = Some l -> nth_error l 3 = Some b3 ->
         (4 + length_byte b3 + 4 <= List.length l)%nat ->
         exists (host : string) (hi lo : byte),
           nth_error l (4 + length_byte b3 + 2) = Some hi /\
           nth_error l (4 + length_byte b3 + 3) = Some lo /\
           decodeHostPortPayload b = Ret (host, 256 * int_of_byte hi + int_of_byte lo, None))
  /\ (forall (l : list byte) (b3 x : byte) (k : nat),
         b = Some l -> nth_error l 3 = Some b3 -> (k < 2)%nat ->
         decodeHostPortPayload (Some (update (4 + length_byte b3 + k) x l))
         = decodeHostPortPayload b).
Proof.
  split; [apply decode_no_panic|].
  split; [apply decode_port_range|].
  split.
  - intros l b3 -> E3 Ht.
    destruct (decode_long l b3 E3 Ht) as (hi & lo & Ehi & Elo & D).
    eauto 10.
  - intros l b3 x k -> E3 Hk. apply decode_ignores_high_port_bytes; assumption.
Qed.

(** A payload for host [ab], port 443, whose port field starts with two
    non-zero bytes: the port is read from the last two alone. *)
Lemma decodeHostPortPayload_total_witness :
  decodeHostPortPayload (Some [x00; x00; x00; x02; x61; x62; xff; xff; x01; xbb])
  = Ret ("ab"%string, 443, None)
  /\ 0 <= 443 <= 65535.
Proof.
  pose proof (decodeHostPortPayload_total
                (Some [x00; x00; x00; x02; x61; x62; xff; xff; x01; xbb])) as (_ & R & _ & _).
  split; [reflexivity|]. apply (R "ab"%string 443 None). reflexivity.
Defined.

(** ** The destination check: properties *)

Lemma allowed_loop_In (addr : string) (allowedDestinations : list string) :
  allowed_loop addr allowedDestinations = true <-> In addr allowedDestinations.
Proof.
  induction allowedDestinations as [|dest rest IH]; simpl.
  - split; [discriminate | contradiction].
  - destruct (String.eqb_spec addr dest) as [-> | Hne].
    + split; auto.
    + rewrite IH. split; [auto | intros [E | HIn]; [congruence | exact HIn]].
Qed.

Lemma destination_permitted_nonempty (addr dest : string) (rest : list string) :
  destination_permitted addr (dest :: rest) = allowed_loop addr (dest :: rest).
Proof.
  unfold destination_permitted.
  replace (0 <? Z.of_nat (List.length (dest :: rest))) with true
    by (symmetry; apply Z.ltb_lt; simpl List.length; lia).
  reflexivity.
Qed.

(** C2. Every destination is permitted when the allow-list is empty; when
    it is not, a destination is permitted if and only if it is, as a string,
    one of the entries.  The comparison is that of the bytes: an entry that
    differs in the case of a letter does not permit it. *)
Theorem destination_permitted_iff (d : string) :
  destination_permitted d [] = true
  /\ (forall allowedDestinations : list string,
         allowedDestinations <> [] ->
         (destination_permitted d allowedDestinations = true <-> In d allowedDestinations))
  /\ destination_permitted "Example.com:80" ["example.com:80"%string] = false.
Proof.
  split; [reflexivity|]. split; [| reflexivity].
  intros [|dest rest] Hne; [contradiction|].
  rewrite destination_permitted_nonempty. apply allowed_loop_In.
Qed.

(** With the allow-list of scenario A, [10.0.0.5:443] is permitted and
    [10.0.0.5:80] is not. *)
Lemma destination_permitted_iff_witness :
  destination_permitted "10.0.0.5:443" ["10.0.0.5:443"%string] = true
  /\ destination_permitted "10.0.0.5:80" ["10.0.0.5:443"%string] <> true.
Proof.
  split.
  - apply (proj1 (proj2 (destination_permitted_iff "10.0.0.5:443")));
      [discriminate | simpl; auto].
  - intros E.
    apply (proj1 (proj2 (destination_permitted_iff "10.0.0.5:80"))) in E;
      [| discriminate].
    simpl in E. destruct E as [E | []]. discriminate E.
Defined.

(** ** The forwarding handler: properties *)

(** The candidate destination of a decoded payload (line 103). *)
Lemma handleDial_decoded (net : Network) (newChannel : NewChannel)
  (allowedDestinations : list string) (host : string) (port : Z) :
  decodeHostPortPayload (ExtraData newChannel) = Ret (host, port, None) ->
  handleDial net newChannel allowedDestinations
  = let addr := JoinHostPort host (Itoa port) in
    if destination_permitted addr allowedDestinations
    then
      ' (rconn, err) <- DialTimeout net "tcp" addr (10 * Second) ;;
      match err with
      | Some _ => Reject newChannel ConnectionFailed "connection failed"
      | None =>
          defer (Close Destination rconn)
            (' (channel, requests, err) <- Accept newChannel ;;
             match err with
             | Some e => ret (Some e)
             | None =>
                 defer (Close Client channel)
                   (go_ (DiscardRequests requests) ;;;
                    go_ (io_Copy (Write_ Client channel) Destination rconn) ;;;
                    ' (_, err) <- io_Copy (Write_ Destination rconn) Client channel ;;
                    ret err)
             end)
      end
    else Reject newChannel Prohibited "connection to this address is prohibited".
Proof.
  intros D. unfold handleDial. rewrite D.
  cbn [bind io_monad lift outcome trace app].
  destruct (destination_permitted _ _); [| reflexivity].
  match goal with |- IO ?t ?o = ?m => destruct m as [t' o']; reflexivity end.
Qed.

Lemma destination_permitted_false (addr : string) (allowedDestinations : list string) :
  allowedDestinations <> [] -> ~ In addr allowedDestinations ->
  destination_permitted addr allowedDestinations = false.
Proof.
  intros Hne Hnot. destruct allowedDestinations as [|dest rest]; [contradiction|].
  rewrite destination_permitted_nonempty.
  destruct (allowed_loop addr (dest :: rest)) eqn:E; [| reflexivity].
  apply allowed_loop_In in E. contradiction.
Qed.

(** C1. When the payload of a direct-tcpip channel open decodes and its
    candidate destination is not an entry of a non-empty allow-list, the
    handler makes one call only, the rejection of the channel open with the
    reason [Prohibited], and returns what that call returned: no call of
    its trace, nor of a goroutine, is a dial. *)
Theorem handleDial_prohibited (net : Network) (newChannel : NewChannel)
  (allowedDestinations : list string) (host : string) (port : Z) :
  decodeHostPortPayload (ExtraData newChannel) = Ret (host, port, None) ->
  allowedDestinations <> [] ->
  ~ In (JoinHostPort host (Itoa port)) allowedDestinations ->
  handleDial net newChannel allowedDestinations
  = IO [EvReject Prohibited "connection to this address is prohibited"]
       (Ret (reject_err newChannel))
  /\ filter is_dial (all_calls (trace (handleDial net newChannel allowedDestinations))) = [].
Proof.
  intros D Hne Hnot.
  assert (E : handleDial net newChannel allowedDestinations
              = IO [EvReject Prohibited "connection to this address is prohibited"]
                   (Ret (reject_err newChannel))).
  { rewrite (handleDial_decoded _ _ _ _ _ D). cbv zeta.
    rewrite (destination_permitted_false _ _ Hne Hnot). reflexivity. }
  split; [exact E|]. rewrite E. reflexivity.
Qed.

(** Scenario B: the allow-list holds [10.0.0.5:443] and the client asks for
    [10.0.0.5:80], whatever the network would answer. *)
Lemma handleDial_prohibited_witness :
  forallb (fun e => negb (is_dial e))
    (all_calls (trace (handleDial
       (fun _ => ({| incoming := []; read_err := None;
                     write_err := fun _ => None; close_err := None |}, None))
       {| ChannelType := "direct-tcpip";
          ExtraData := Some (direct_tcpip_payload "10.0.0.5" 80 []);
          reject_err := None; accept_err := None;
          channel := {| incoming := []; read_err := None;
                        write_err := fun _ => None; close_err := None |};
          requests := [] |}
       ["10.0.0.5:443"%string]))) = true.
Proof.
  match goal with
  | |- context [handleDial ?n ?c ?a] =>
      destruct (handleDial_prohibited n c a "10.0.0.5" 80) as [E _];
      [ reflexivity | discriminate | simpl; intros [E | []]; discriminate E
      | rewrite E; reflexivity ]
  end.
Defined.

(** C4, as the code behaves.  When the payload does not decode, the handler
    returns the error of the decoder and has made no call: the channel open
    is neither rejected nor accepted.  Its caller starts it with a [go]
    statement, which drops the error, so nothing answers the client. *)
Theorem handleDial_malformed_unanswered (net : Network) (newChannel : NewChannel)
  (allowedDestinations : list string) (nConn : Stream) :
  ChannelType newChannel = "direct-tcpip"%string ->
  decodeHostPortPayload (ExtraData newChannel)
  = Ret (EmptyString, 0, Some invalid_payload_size) ->
  handleDial net newChannel allowedDestinations = IO [] (Ret (Some invalid_payload_size))
  /\ handleConn net nConn
       {| handshake_err := None; chans := [newChannel]; reqs := [] |} allowedDestinations
     = IO [EvGo []; EvGo []; EvClose Transport] (Ret None).
Proof.
  intros T D.
  assert (E : handleDial net newChannel allowedDestinations
              = IO [] (Ret (Some invalid_payload_size))).
  { unfold handleDial. rewrite D. reflexivity. }
  split; [exact E|].
  unfold handleConn, serve_channels. cbn [handshake_err chans reqs].
  rewrite T, E. reflexivity.
Qed.

(** A channel open whose payload stops after two of the five announced host
    bytes. *)
Lemma handleDial_malformed_unanswered_witness :
  trace (handleDial
       (fun _ => ({| incoming := []; read_err := None;
                     write_err := fun _ => None; close_err := None |}, None))
       {| ChannelType := "direct-tcpip";
          ExtraData := Some [x00; x00; x00; x05; x61; x62];
          reject_err := None; accept_err := None;
          channel := {| incoming := []; read_err := None;
                        write_err := fun _ => None; close_err := None |};
          requests := [] |}
       []) = [].
Proof.
  match goal with
  | |- context [handleDial ?n ?c ?a] =>
      destruct (handleDial_malformed_unanswered n c a (channel c)) as [E _];
      [ reflexivity | reflexivity | rewrite E; reflexivity ]
  end.
Defined.

(** C8. When the candidate destination is permitted and the dial fails, for
    whatever reason, the handler has dialed once, over TCP with a timeout of
    ten seconds, then rejected the channel open with the reason
    [ConnectionFailed]; it returns what the rejection returned.  Exactly one
    call is a dial. *)
Theorem handleDial_dial_failed (net : Network) (newChannel : NewChannel)
  (allowedDestinations : list string) (host : string) (port : Z)
  (rconn : Stream) (e : error) :
  decodeHostPortPayload (ExtraData newChannel) = Ret (host, port, None) ->
  destination_permitted (JoinHostPort host (Itoa port)) allowedDestinations = true ->
  net (JoinHostPort host (Itoa port)) = (rconn, Some e) ->
  handleDial net newChannel allowedDestinations
  = IO [EvDial "tcp" (JoinHostPort host (Itoa port)) 10000000000;
        EvReject ConnectionFailed "connection failed"]
       (Ret (reject_err newChannel))
  /\ List.length (filter is_dial
        (all_calls (trace (handleDial net newChannel allowedDestinations)))) = 1%nat.
Proof.
  intros D P N.
  assert (E : handleDial net newChannel allowedDestinations
              = IO [EvDial "tcp" (JoinHostPort host (Itoa port)) 10000000000;
                    EvReject ConnectionFailed "connection failed"]
                   (Ret (reject_err newChannel))).
  { rewrite (handleDial_decoded _ _ _ _ _ D). cbv zeta. rewrite P.
    unfold DialTimeout. cbn [bind io_monad emit outcome trace ret app].
    rewrite N. reflexivity. }
  split; [exact E|]. rewrite E. reflexivity.
Qed.

(** Scenario C: no allow-list, and nothing listens at the destination. *)
Lemma handleDial_dial_failed_witness :
  trace (handleDial
       (fun _ => ({| incoming := []; read_err := None;
                     write_err := fun _ => None; close_err := None |},
                  Some (net_error "connection refused")))
       {| ChannelType := "direct-tcpip";
          ExtraData := Some (direct_tcpip_payload "10.0.0.5" 80 []);
          reject_err := None; accept_err := None;
          channel := {| incoming := []; read_err := None;
                        write_err := fun _ => None; close_err := None |};
          requests := [] |}
       [])
  = [EvDial "tcp" "10.0.0.5:80" 10000000000;
     EvReject ConnectionFailed "connection failed"].
Proof.
  match goal with
  | |- context [handleDial ?n ?c ?a] =>
      destruct (handleDial_dial_failed n c a "10.0.0.5" 80 (channel c)
                  (net_error "connection refused")) as [E _];
      [ reflexivity | reflexivity | reflexivity | rewrite E; reflexivity ]
  end.
Defined.

(** The candidate destination of a host that holds a colon is not the plain
    concatenation.  For the host [::1] and the port 80 the handler checks
    and dials [[::1]:80]: the allow-list entry [::1:80] does not permit the
    request, and with no allow-list the dial goes to [[::1]:80]. *)
Lemma handleDial_candidate_counterexample :
  decodeHostPortPayload (Some (direct_tcpip_payload "::1" 80 []))
  = Ret ("::1"%string, 80, None)
  /\ ("::1" ++ ":" ++ Itoa 80)%string = "::1:80"%string
  /\ JoinHostPort "::1" (Itoa 80) <> ("::1" ++ ":" ++ Itoa 80)%string
  /\ (forall (net : Network) (newChannel : NewChannel),
         ExtraData newChannel = Some (direct_tcpip_payload "::1" 80 []) ->
         handleDial net newChannel ["::1:80"%string]
         = IO [EvReject Prohibited "connection to this address is prohibited"]
              (Ret (reject_err newChannel))
         /\ hd_error (trace (handleDial net newChannel []))
            = Some (EvDial "tcp" "[::1]:80" 10000000000)).
Proof.
  split; [reflexivity|]. split; [reflexivity|]. split; [discriminate|].
  intros net newChannel X.
  assert (D : decodeHostPortPayload (ExtraData newChannel) = Ret ("::1"%string, 80, None))
    by (rewrite X; reflexivity).
  split.
  - rewrite (handleDial_decoded _ _ _ _ _ D). reflexivity.
  - rewrite (handleDial_decoded _ _ _ _ _ D). cbv zeta.
    change (destination_permitted (JoinHostPort "::1" (Itoa 80)) []) with true.
    cbv iota. unfold DialTimeout. cbn [bind io_monad emit outcome trace ret app].
    destruct (net (JoinHostPort "::1" (Itoa 80))) as [rconn [e|]]; reflexivity.
Qed.

(** C7, amended.  For a decoded payload with host [h] and port [p], the
    string the handler checks against the allow-list and dials is
    [h ++ ":" ++ decimal p] when [h] holds no colon, and
    ["[" ++ h ++ "]:" ++ decimal p] when it holds one: a permitted candidate
    is the address of the first call, a dial, and a candidate that is not
    permitted gets the channel open rejected. *)
Theorem handleDial_candidate (net : Network) (newChannel : NewChannel)
  (allowedDestinations : list string) (h : string) (p : Z) (addr : string) :
  decodeHostPortPayload (ExtraData newChannel) = Ret (h, p, None) ->
  addr = (if contains_byte ":" h
          then "[" ++ h ++ "]:" ++ Itoa p
          else h ++ ":" ++ Itoa p)%string ->
  (destination_permitted addr allowedDestinations = true ->
   hd_error (trace (handleDial net newChannel allowedDestinations))
   = Some (EvDial "tcp" addr 10000000000))
  /\ (destination_permitted addr allowedDestinations = false ->
      handleDial net newChannel allowedDestinations
      = IO [EvReject Prohibited "connection to this address is prohibited"]
           (Ret (reject_err newChannel))).
Proof.
  intros D ->. fold (JoinHostPort h (Itoa p)).
  rewrite (handleDial_decoded _ _ _ _ _ D). cbv zeta.
  split; intros P; rewrite P; [| reflexivity].
  unfold DialTimeout. cbn [bind io_monad emit outcome trace ret app].
  destruct (net (JoinHostPort h (Itoa p))) as [rconn [e|]]; reflexivity.
Qed.

(** Scenario A: the host [10.0.0.5] holds no colon and the dial goes to
    [10.0.0.5:443]. *)
Lemma handleDial_candidate_witness :
  hd_error (trace (handleDial
       (fun _ => ({| incoming := []; read_err := None;
                     write_err := fun _ => None; close_err := None |}, None))
       {| ChannelType := "direct-tcpip";
          ExtraData := Some (direct_tcpip_payload "10.0.0.5" 443 []);
          reject_err := None; accept_err := None;
          channel := {| incoming := []; read_err := None;
                        write_err := fun _ => None; close_err := None |};
          requests := [] |}
       ["10.0.0.5:443"%string]))
  = Some (EvDial "tcp" "10.0.0.5:443" 10000000000).
Proof.
  match goal with
  | |- context [handleDial ?n ?c ?a] =>
      destruct (handleDial_candidate n c a "10.0.0.5" 443 "10.0.0.5:443") as [E _];
      [ reflexivity | reflexivity | apply E; reflexivity ]
  end.
Defined.

(** ** The session handler: properties *)

Lemma session_requests_trace (reqs : list Request) :
  session_requests reqs = IO (map session_reply reqs) (Ret tt).
Proof.
  induction reqs as [|req rest IH]; [reflexivity|].
  cbn [session_requests]. rewrite IH. reflexivity.
Qed.

Lemma copy_loop_Discard (from : endpoint) (chunks : list (list byte))
  (last : option error) (written : Z) :
  exists n : Z,
    copy_loop Discard from chunks last written = IO (map (EvRead from) chunks) (Ret (n, last)).
Proof.
  revert written. induction chunks as [|data rest IH]; intros written.
  - exists written. reflexivity.
  - destruct (IH (written + Z.of_nat (List.length data))) as [n E].
    exists n. cbn [copy_loop]. unfold Discard at 1.
    cbn [bind io_monad emit ret outcome trace app]. rewrite E. reflexivity.
Qed.

Lemma all_calls_app (t u : list event) :
  all_calls (t ++ u) = all_calls t ++ all_calls u.
Proof. apply flat_map_app. Qed.

Lemma all_calls_replies (reqs : list Request) :
  all_calls (map session_reply reqs) = map session_reply reqs.
Proof.
  induction reqs as [|req rest IH]; [reflexivity|].
  unfold all_calls in *. simpl. now rewrite IH.
Qed.

Lemma all_calls_reads (from : endpoint) (chunks : list (list byte)) :
  all_calls (map (EvRead from) chunks) = map (EvRead from) chunks.
Proof.
  induction chunks as [|data rest IH]; [reflexivity|].
  unfold all_calls in *. simpl. now rewrite IH.
Qed.

(** The trace of a session whose channel was accepted. *)
Lemma handleSession_accepted (newChannel : NewChannel) :
  accept_err newChannel = None ->
  handleSession newChannel
  = IO (EvAccept :: EvGo (map session_reply (requests newChannel))
          :: map (EvRead Client) (incoming (channel newChannel)) ++ [EvClose Client])
       (Ret (read_err (channel newChannel))).
Proof.
  intros A. unfold handleSession, Accept.
  cbn [bind io_monad emit ret outcome trace app]. rewrite A.
  unfold io_Copy.
  destruct (copy_loop_Discard Client (incoming (channel newChannel))
              (read_err (channel newChannel)) 0) as [n E].
  unfold defer, go_. rewrite session_requests_trace.
  cbn [bind io_monad emit ret outcome trace app]. rewrite E.
  cbn [bind io_monad emit ret outcome trace app]. rewrite app_nil_r. reflexivity.
Qed.

Lemma all_calls_session (newChannel : NewChannel) :
  accept_err newChannel = None ->
  all_calls (trace (handleSession newChannel))
  = EvAccept :: EvGo (map session_reply (requests newChannel))
      :: map session_reply (requests newChannel)
      ++ map (EvRead Client) (incoming (channel newChannel)) ++ [EvClose Client].
Proof.
  intros A. rewrite (handleSession_accepted _ A). cbn [trace].
  change (all_calls (EvAccept :: EvGo ?r :: ?t))
    with (EvAccept :: EvGo r :: all_calls r ++ all_calls t).
  rewrite all_calls_replies, all_calls_app, all_calls_reads. reflexivity.
Qed.

(** C6. On a session channel that was accepted, the goroutine of the
    handler makes one reply per request received, in their order, and the
    reply is a success exactly when the type of the request is the string
    [shell].  The handler reads what the client sends and passes it to
    nothing.  Its calls, and those of its goroutine, are the accept, the
    [go] statement, the replies, the reads from the client and the close of
    the channel: none writes to the client and none starts a process. *)
Theorem handleSession_replies (newChannel : NewChannel) :
  accept_err newChannel = None ->
  handleSession newChannel
  = IO (EvAccept
          :: EvGo (map (fun req => EvReply req (String.eqb (Type_ req) "shell"))
                     (requests newChannel))
          :: map (EvRead Client) (incoming (channel newChannel)) ++ [EvClose Client])
       (Ret (read_err (channel newChannel)))
  /\ (forall (req : Request) (ok : bool),
         In (EvReply req ok) (all_calls (trace (handleSession newChannel))) ->
         In req (requests newChannel) /\ (ok = true <-> Type_ req = "shell"%string))
  /\ (forall req : Request,
         In req (requests newChannel) ->
         In (EvReply req (String.eqb (Type_ req) "shell"))
            (all_calls (trace (handleSession newChannel))))
  /\ forallb is_session_call (all_calls (trace (handleSession newChannel))) = true
  /\ filter is_write (all_calls (trace (handleSession newChannel))) = [].
Proof.
  intros A. split; [exact (handleSession_accepted _ A)|].
  rewrite (all_calls_session _ A).
  set (rs := requests newChannel). set (cs := incoming (channel newChannel)).
  split; [| split; [| split]].
  - intros req ok HIn.
    destruct HIn as [X | [X | HIn]]; try discriminate X.
    apply in_app_or in HIn. destruct HIn as [HIn | HIn].
    + apply in_map_iff in HIn. destruct HIn as (r & E & Hr).
      unfold session_reply in E. injection E as -> <-.
      split; [exact Hr | apply String.eqb_eq].
    + apply in_app_or in HIn. destruct HIn as [HIn | [X | []]]; [| discriminate X].
      apply in_map_iff in HIn. destruct HIn as (d & X & _). discriminate X.
  - intros req Hr. right. right. apply in_or_app. left.
    apply (in_map session_reply). exact Hr.
  - apply forallb_forall. intros e HIn.
    destruct HIn as [<- | [<- | HIn]]; try reflexivity.
    apply in_app_or in HIn. destruct HIn as [HIn | HIn].
    + apply in_map_iff in HIn. destruct HIn as (r & <- & _). reflexivity.
    + apply in_app_or in HIn. destruct HIn as [HIn | [<- | []]]; [| reflexivity].
      apply in_map_iff in HIn. destruct HIn as (d & <- & _). reflexivity.
  - cbn [filter is_write]. rewrite !filter_app.
    assert (F1 : filter is_write (map session_reply rs) = []).
    { induction rs as [|r rs' IH]; [reflexivity | exact IH]. }
    assert (F2 : filter is_write (map (EvRead Client) cs) = []).
    { induction cs as [|d cs' IH]; [reflexivity | exact IH]. }
    rewrite F1, F2. reflexivity.
Qed.

(** Scenario D: a [pty-req] request, then a [shell] request, and two chunks
    of data from the client. *)
Lemma handleSession_replies_witness :
  trace (handleSession
       {| ChannelType := "session"; ExtraData := None;
          reject_err := None; accept_err := None;
          channel := {| incoming := [[x6c; x73]; [x0a]]; read_err := None;
                        write_err := fun _ => None; close_err := None |};
          requests := [ {| Type_ := "pty-req"; WantReply := true; Payload := [] |};
                        {| Type_ := "shell"; WantReply := true; Payload := [] |} ] |})
  = [EvAccept;
     EvGo [EvReply {| Type_ := "pty-req"; WantReply := true; Payload := [] |} false;
           EvReply {| Type_ := "shell"; WantReply := true; Payload := [] |} true];
     EvRead Client [x6c; x73]; EvRead Client [x0a];
     EvClose Client].
Proof.
  match goal with
  | |- context [handleSession ?c] =>
      destruct (handleSession_replies c) as [E _];
      [ reflexivity | rewrite E; reflexivity ]
  end.
Defined.

(** ** The key check: properties *)

Lemma bytes_Equal_eq (a b : list byte) : bytes_Equal a b = true <-> a = b.
Proof.
  revert b. induction a as [|x a IH]; intros [|y b]; simpl;
    try (split; [reflexivity || discriminate | reflexivity || discriminate]).
  rewrite andb_true_iff, IH. split.
  - intros [E ->]. apply Byte.byte_dec_bl in E. now subst.
  - intros E. injection E as -> ->. split; [now apply Byte.byte_dec_lb | reflexivity].
Qed.

Lemma flip_byte_neq (j : nat) (x : byte) : flip_byte j x <> x.
Proof.
  unfold flip_byte.
  assert (Hm : (j mod 8 < 8)%nat) by (apply Nat.mod_upper_bound; lia).
  generalize dependent (j mod 8)%nat. intros m Hm.
  do 8 (destruct m as [|m];
        [destruct x; intros E; vm_compute in E; discriminate E|]).
  lia.
Qed.

Lemma flip_bit_neq (i : nat) (l : list byte) :
  (i < 8 * List.length l)%nat -> flip_bit i l <> l.
Proof.
  revert i. induction l as [|x l IH]; intros i Hi; simpl in Hi; [lia|].
  cbn [flip_bit]. destruct (Nat.ltb_spec i 8) as [Hlt | Hge].
  - intros E. injection E as E. exact (flip_byte_neq i x E).
  - intros E. injection E as E. apply (IH (i - 8)%nat); [lia | exact E].
Qed.

Section AuthFacts.

Context {K : Type} `{PublicKey K}.
Variable ParseAuthorizedKey : list byte -> K + error.
Variable ConnMetadata : Type.

(** The parser of [golang.org/x/crypto/ssh] finds no key in an empty
    input. *)
Hypothesis ParseAuthorizedKey_blank : exists e : error, ParseAuthorizedKey [] = inr e.

Lemma key_loop_In (keyBytes : list byte) (pkeys : list (list byte)) :
  key_loop keyBytes pkeys = true <-> In keyBytes pkeys.
Proof.
  induction pkeys as [|k rest IH]; simpl.
  - split; [discriminate | contradiction].
  - destruct (bytes_Equal keyBytes k) eqn:E.
    + apply bytes_Equal_eq in E. split; auto.
    + rewrite IH. split; [auto | intros [X | HIn]; [| exact HIn]].
      symmetry in X. apply bytes_Equal_eq in X. congruence.
Qed.

Lemma check_key_accepts (pkeys : list (list byte)) (conn : ConnMetadata) (key : K) :
  check_key ConnMetadata pkeys conn key = (None, None) <-> In (Marshal key) pkeys.
Proof.
  unfold check_key. rewrite <- key_loop_In.
  destruct (key_loop (Marshal key) pkeys); split; intros X;
    reflexivity || discriminate X.
Qed.

Lemma check_key_rejects (pkeys : list (list byte)) (conn : ConnMetadata) (key : K) :
  ~ In (Marshal key) pkeys ->
  check_key ConnMetadata pkeys conn key = (None, Some no_keys_matched).
Proof.
  intros Hnot. unfold check_key.
  destruct (key_loop (Marshal key) pkeys) eqn:E; [| reflexivity].
  apply key_loop_In in E. contradiction.
Qed.

(** A scan that succeeds has parsed every line, and appended the marshaled
    keys in the order of the lines. *)
Lemma scan_keys_inl (ls : list (list byte)) (acc pkeys : list (list byte)) :
  scan_keys ParseAuthorizedKey ls acc = inl pkeys ->
  exists keys : list K,
    map ParseAuthorizedKey ls = map inl keys /\ pkeys = acc ++ map Marshal keys.
Proof.
  revert acc. induction ls as [|line rest IH]; intros acc E; cbn [scan_keys] in E.
  - exists []. injection E as <-. split; [reflexivity | now rewrite app_nil_r].
  - destruct (ParseAuthorizedKey line) as [pk | err] eqn:P; [| discriminate E].
    destruct (IH _ E) as (keys & M & ->).
    exists (pk :: keys). cbn [map]. rewrite P, M, <- app_assoc. split; reflexivity.
Qed.

(** A scan that fails returns the error of a line. *)
Lemma scan_keys_inr (ls : list (list byte)) (acc : list (list byte)) (e : error) :
  scan_keys ParseAuthorizedKey ls acc = inr e ->
  exists line, In line ls /\ ParseAuthorizedKey line = inr e.
Proof.
  revert acc. induction ls as [|line rest IH]; intros acc E; cbn [scan_keys] in E.
  - discriminate E.
  - destruct (ParseAuthorizedKey line) as [pk | err] eqn:P.
    + destruct (IH _ E) as (line' & HIn & P'). exists line'. split; [now right | exact P'].
    + injection E as ->. exists line. split; [now left | exact P].
Qed.

(** A line the parser refuses makes the scan fail. *)
Lemma scan_keys_bad_line (ls : list (list byte)) (acc : list (list byte))
  (line : list byte) (e : error) :
  In line ls -> ParseAuthorizedKey line = inr e ->
  exists e', scan_keys ParseAuthorizedKey ls acc = inr e'.
Proof.
  revert acc. induction ls as [|l rest IH]; intros acc HIn P; [contradiction|].
  cbn [scan_keys]. destruct (ParseAuthorizedKey l) as [pk | err] eqn:P'.
  - destruct HIn as [-> | HIn]; [congruence|]. apply IH; assumption.
  - exists err. reflexivity.
Qed.

(** The outcomes of [authChecker], by what it met. *)
Lemma authChecker_cases (fs : FileSystem) (name : string) :
  match fs name with
  | inr err => authChecker ParseAuthorizedKey ConnMetadata fs name = (None, Some err)
  | inl f =>
      match scan_keys ParseAuthorizedKey (lines f) [] with
      | inr err => authChecker ParseAuthorizedKey ConnMetadata fs name = (None, Some err)
      | inl pkeys =>
          match scan_err f with
          | Some err => authChecker ParseAuthorizedKey ConnMetadata fs name = (None, Some err)
          | None => authChecker ParseAuthorizedKey ConnMetadata fs name
                    = (Some (check_key ConnMetadata pkeys), None)
          end
      end
  end.
Proof.
  unfold authChecker. destruct (fs name) as [f | err]; [| reflexivity].
  destruct (scan_keys ParseAuthorizedKey (lines f) []) as [pkeys | err]; [| reflexivity].
  destruct (scan_err f); reflexivity.
Qed.

Lemma authChecker_success (fs : FileSystem) (name : string)
  (cb : ConnMetadata -> K -> option Permissions * option error) :
  authChecker ParseAuthorizedKey ConnMetadata fs name = (Some cb, None) ->
  exists (f : File) (keys : list K),
    fs name = inl f /\ scan_err f = None /\
    map ParseAuthorizedKey (lines f) = map inl keys /\
    cb = check_key ConnMetadata (map Marshal keys).
Proof.
  intros E. pose proof (authChecker_cases fs name) as C.
  destruct (fs name) as [f | err]; [| congruence].
  destruct (scan_keys ParseAuthorizedKey (lines f) []) as [pkeys | err] eqn:S; [| congruence].
  destruct (scan_err f) as [err|] eqn:X; [congruence|].
  destruct (scan_keys_inl _ _ _ S) as (keys & M & ->).
  exists f, keys. repeat split; try assumption. cbn [app] in C. congruence.
Qed.

(** C5. The function [authChecker] returns accepts a presented key, with
    the nil permissions and no error, if and only if the marshaled bytes of
    the key are, byte for byte, those of a key of the authorized-keys file;
    any other key gets the error [no keys matched].  Inverting one bit of a
    stored key gives bytes that differ from that key, so with no other key
    stored the result is refused. *)
Theorem authChecker_accepts_iff (fs : FileSystem) (name : string)
  (cb : ConnMetadata -> K -> option Permissions * option error) :
  authChecker ParseAuthorizedKey ConnMetadata fs name = (Some cb, None) ->
  exists (f : File) (keys : list K),
    fs name = inl f /\
    map ParseAuthorizedKey (lines f) = map inl keys /\
    forall (conn : ConnMetadata) (key : K),
      (cb conn key = (None, None) <-> In (Marshal key) (map Marshal keys))
      /\ (~ In (Marshal key) (map Marshal keys) ->
          cb conn key = (None, Some no_keys_matched))
      /\ (forall (k0 : K) (i : nat),
             keys = [k0] -> (i < 8 * List.length (Marshal k0))%nat ->
             Marshal key = flip_bit i (Marshal k0) ->
             cb conn key = (None, Some no_keys_matched)).
Proof.
  intros E. destruct (authChecker_success fs name cb E) as (f & keys & F & _ & M & ->).
  exists f, keys. split; [exact F|]. split; [exact M|].
  intros conn key. split; [apply check_key_accepts|].
  split; [apply check_key_rejects|].
  intros k0 i -> Hi Hk. apply check_key_rejects. cbn [map In].
  intros [X | []]. rewrite Hk in X. symmetry in X. exact (flip_bit_neq i _ Hi X).
Qed.

(** C9. The construction fails when the file cannot be opened, with the
    error of the open; when the parser refuses a line of the file, with the
    error of a refused line; when a line is blank; and when the scanner ends
    on an error.  When it succeeds, every line of the file was parsed into a
    key and the keys loaded are those, one per line in the order of the
    lines: no line was skipped. *)
Theorem authChecker_fails (fs : FileSystem) (name : string) :
  (forall e : error,
      fs name = inr e ->
      authChecker ParseAuthorizedKey ConnMetadata fs name = (None, Some e))
  /\ (forall (f : File) (line : list byte) (e : error),
         fs name = inl f -> In line (lines f) -> ParseAuthorizedKey line = inr e ->
         exists (line' : list byte) (e' : error),
           In line' (lines f) /\ ParseAuthorizedKey line' = inr e' /\
           authChecker ParseAuthorizedKey ConnMetadata fs name = (None, Some e'))
  /\ (forall f : File,
         fs name = inl f -> In [] (lines f) ->
         exists e' : error,
           authChecker ParseAuthorizedKey ConnMetadata fs name = (None, Some e'))
  /\ (forall (f : File) (e : error),
         fs name = inl f -> scan_err f = Some e ->
         exists e' : error,
           authChecker ParseAuthorizedKey ConnMetadata fs name = (None, Some e'))
  /\ (forall cb : ConnMetadata -> K -> option Permissions * option error,
         authChecker ParseAuthorizedKey ConnMetadata fs name = (Some cb, None) ->
         exists (f : File) (keys : list K),
           fs name = inl f /\ scan_err f = None /\
           map ParseAuthorizedKey (lines f) = map inl keys /\
           List.length keys = List.length (lines f) /\
           cb = check_key ConnMetadata (map Marshal keys)).
Proof.
  pose proof (authChecker_cases fs name) as C.
  assert (Bad : forall (f : File) (line : list byte) (e : error),
             fs name = inl f -> In line (lines f) -> ParseAuthorizedKey line = inr e ->
             exists (line' : list byte) (e' : error),
               In line' (lines f) /\ ParseAuthorizedKey line' = inr e' /\
               authChecker ParseAuthorizedKey ConnMetadata fs name = (None, Some e')).
  { intros f line e F HIn P. rewrite F in C.
    destruct (scan_keys_bad_line (lines f) [] line e HIn P) as [e' S].
    rewrite S in C. destruct (scan_keys_inr _ _ _ S) as (line' & HIn' & P').
    exists line', e'. auto. }
  split; [| split; [exact Bad | split; [| split]]].
  - intros e F. rewrite F in C. exact C.
  - intros f F HIn. destruct ParseAuthorizedKey_blank as [e P].
    destruct (Bad f [] e F HIn P) as (line' & e' & _ & _ & A). exists e'. exact A.
  - intros f e F X. rewrite F in C.
    destruct (scan_keys ParseAuthorizedKey (lines f) []) as [pkeys | err].
    + rewrite X in C. exists e. exact C.
    + exists err. exact C.
  - intros cb E. destruct (authChecker_success fs name cb E) as (f & keys & F & X & M & ->).
    exists f, keys. repeat split; try assumption.
    rewrite <- (length_map (@inl K error) keys), <- M. apply length_map.
Qed.

End AuthFacts.

(** A file holding the one key [ab]: that key is accepted, and the key
    [ac], one bit away, is refused. *)
Lemma authChecker_accepts_iff_witness :
  check_key (H := raw_key) unit [[x61; x62]] tt [x61; x62] = (None, None)
  /\ check_key (H := raw_key) unit [[x61; x62]] tt [x61; x63] = (None, Some no_keys_matched).
Proof.
  destruct (authChecker_accepts_iff (H := raw_key) parse_raw_key unit
              (fun _ => inl {| lines := [[x61; x62]]; scan_err := None |})
              "authorized_keys"
              (check_key (H := raw_key) unit [[x61; x62]]) eq_refl)
    as (f & keys & F & M & Hc).
  injection F as <-. cbn [lines map parse_raw_key] in M.
  destruct keys as [|k [|k' keys]]; try discriminate M.
  injection M as <-.
  split.
  - apply (proj1 (Hc tt [x61; x62])). left. reflexivity.
  - apply (proj2 (proj2 (Hc tt [x61; x63])) [x61; x62] 8%nat);
      [reflexivity | simpl; lia | reflexivity].
Defined.

(** A file with a blank line between two keys: the construction fails. *)
Lemma authChecker_fails_witness :
  exists e' : error,
    authChecker (H := raw_key) parse_raw_key unit
      (fun _ => inl {| lines := [[x61; x62]; []; [x63]]; scan_err := None |})
      "authorized_keys"
    = (None, Some e').
Proof.
  refine (proj1 (proj2 (proj2
            (authChecker_fails (H := raw_key) parse_raw_key unit
               (ex_intro _ (ssh_error "ssh: no key found") eq_refl)
               (fun _ => inl {| lines := [[x61; x62]; []; [x63]]; scan_err := None |})
               "authorized_keys"))) _ eq_refl _).
  simpl. right. left. reflexivity.
Defined.

(** ** The payload decoder: further properties *)

Lemma length_string_of_list_byte (l : list byte) :
  String.length (string_of_list_byte l) = List.length l.
Proof.
  unfold string_of_list_byte.
  induction l as [|x l IH]; simpl; [reflexivity | now rewrite IH].
Qed.

Lemma length_byte_bound (b3 : byte) : (length_byte b3 <= 255)%nat.
Proof.
  pose proof (int_of_byte_bounds b3) as Hb. rewrite int_of_length_byte in Hb. lia.
Qed.

(** Every buffer the decoder refuses gets the same result. *)
Lemma decode_cases (b : option (list byte)) :
  decodeHostPortPayload b = Ret (EmptyString, 0, Some invalid_payload_size)
  \/ exists (host : string) (port : Z), decodeHostPortPayload b = Ret (host, port, None).
Proof.
  destruct b as [l|]; [| left; reflexivity].
  destruct (Nat.lt_ge_cases (List.length l) 4) as [Hs | Hs].
  - left. apply decode_short. simpl. lia.
  - destruct (nth_error l 3) as [b3|] eqn:E3; [| apply nth_error_None in E3; lia].
    destruct (Nat.lt_ge_cases (List.length l) (4 + length_byte b3 + 4)) as [Ht | Ht].
    + left. exact (decode_truncated l b3 E3 Ht).
    + right. destruct (decode_long l b3 E3 Ht) as (hi & lo & _ & _ & D). eauto.
Qed.

(** The buffers that decode. *)
Lemma decode_cases_long (l : list byte) :
  (exists (host : string) (port : Z),
      decodeHostPortPayload (Some l) = Ret (host, port, None))
  <-> (exists b3 : byte,
          nth_error l 3 = Some b3 /\ (4 + length_byte b3 + 4 <= List.length l)%nat).
Proof.
  split.
  - intros (host & port & D).
    destruct (Nat.lt_ge_cases (List.length l) 4) as [Hs | Hs].
    + rewrite decode_short in D by (simpl; lia). discriminate D.
    + destruct (nth_error l 3) as [b3|] eqn:E3; [| apply nth_error_None in E3; lia].
      exists b3. split; [reflexivity|].
      destruct (Nat.lt_ge_cases (List.length l) (4 + length_byte b3 + 4)) as [Ht | Ht];
        [| exact Ht].
      rewrite (decode_truncated l b3 E3 Ht) in D. discriminate D.
  - intros (b3 & E3 & Ht).
    destruct (decode_long l b3 E3 Ht) as (hi & lo & _ & _ & D). eauto.
Qed.

(** X1. The decoder succeeds exactly on the buffers that hold, after the
    four bytes of the length field, as many host bytes as the byte at index
    3 says and four more bytes; on every other buffer it returns the error
    [invalid payload size] with an empty host and the port 0. *)
Theorem decodeHostPortPayload_succeeds_iff (l : list byte) :
  ((exists (host : string) (port : Z),
       decodeHostPortPayload (Some l) = Ret (host, port, None))
   <-> (exists b3 : byte,
           nth_error l 3 = Some b3 /\ (4 + length_byte b3 + 4 <= List.length l)%nat))
  /\ ((forall b3 : byte,
          nth_error l 3 = Some b3 -> (List.length l < 4 + length_byte b3 + 4)%nat) ->
      decodeHostPortPayload (Some l) = Ret (EmptyString, 0, Some invalid_payload_size)).
Proof.
  split; [apply decode_cases_long|].
  intros Hshort. destruct (decode_cases (Some l)) as [D | D]; [exact D|].
  destruct (proj1 (decode_cases_long l) D) as (b3 & E3 & Ht).
  specialize (Hshort b3 E3). lia.
Qed.

Lemma decodeHostPortPayload_succeeds_iff_witness :
  decodeHostPortPayload (Some [x00; x00; x00; x02; x61; x62; x00; x00; x01])
  = Ret (EmptyString, 0, Some invalid_payload_size).
Proof.
  apply (proj2 (decodeHostPortPayload_succeeds_iff _)).
  intros b3 E. injection E as <-. vm_compute. lia.
Defined.

(** X2. A decoded host is the run of bytes that follows the length field,
    as long as the byte at index 3 says: it never has more than 255
    bytes, whatever the first three bytes of the length field hold. *)
Theorem decodeHostPortPayload_host (l : list byte) (host : string) (port : Z) :
  decodeHostPortPayload (Some l) = Ret (host, port, None) ->
  exists b3 : byte,
    nth_error l 3 = Some b3
    /\ host = string_of_list_byte (firstn (length_byte b3) (skipn 4 l))
    /\ String.length host = length_byte b3
    /\ (String.length host <= 255)%nat.
Proof.
  intros D.
  destruct (proj1 (decode_cases_long l)) as (b3 & E3 & Ht); [eauto|].
  destruct (decode_long l b3 E3 Ht) as (hi & lo & _ & _ & D').
  rewrite D' in D.
  assert (Eh : host = string_of_list_byte (firstn (length_byte b3) (skipn 4 l)))
    by congruence.
  assert (El : String.length host = length_byte b3).
  { rewrite Eh, length_string_of_list_byte, length_firstn, length_skipn. lia. }
  exists b3. repeat split; try assumption.
  rewrite El. apply length_byte_bound.
Qed.

Lemma decodeHostPortPayload_host_witness :
  exists b3 : byte,
    nth_error [x00; x00; x00; x02; x61; x62; x00; x00; x01; xbb] 3 = Some b3
    /\ "ab"%string
       = string_of_list_byte
           (firstn (length_byte b3) (skipn 4 [x00; x00; x00; x02; x61; x62; x00; x00; x01; xbb]))
    /\ String.length "ab" = length_byte b3
    /\ (String.length "ab" <= 255)%nat.
Proof.
  apply (decodeHostPortPayload_host _ "ab" 443). reflexivity.
Defined.

(** X3. The bytes that follow the port field (the originator address and
    port) are not looked at: appending any bytes to a buffer that decodes
    leaves the result unchanged. *)
Theorem decodeHostPortPayload_ignores_rest (l rest : list byte) (host : string) (port : Z) :
  decodeHostPortPayload (Some l) = Ret (host, port, None) ->
  decodeHostPortPayload (Some (l ++ rest)) = Ret (host, port, None).
Proof.
  intros D.
  destruct (proj1 (decode_cases_long l)) as (b3 & E3 & Ht); [eauto|].
  destruct (decode_long l b3 E3 Ht) as (hi & lo & Ehi & Elo & D').
  assert (E3' : nth_error (l ++ rest) 3 = Some b3)
    by (rewrite nth_error_app1 by lia; exact E3).
  destruct (decode_long (l ++ rest) b3 E3') as (hi' & lo' & Ehi' & Elo' & D'').
  { rewrite length_app. lia. }
  rewrite nth_error_app1 in Ehi' by lia. rewrite nth_error_app1 in Elo' by lia.
  assert (hi' = hi) as -> by congruence.
  assert (lo' = lo) as -> by congruence.
  rewrite D'', <- D, D'.
  rewrite skipn_app, firstn_app, length_skipn.
  replace (length_byte b3 - (List.length l - 4))%nat with 0%nat by lia.
  cbn [firstn]. rewrite app_nil_r. reflexivity.
Qed.

Lemma decodeHostPortPayload_ignores_rest_witness :
  decodeHostPortPayload
    (Some ([x00; x00; x00; x02; x61; x62; x00; x00; x01; xbb] ++ [x00; x00; x00; x01; x7a]))
  = Ret ("ab"%string, 443, None).
Proof.
  apply decodeHostPortPayload_ignores_rest. reflexivity.
Defined.

Lemma port_low_16_bits (p : Z) :
  256 * int_of_byte (byte_of_Z (p / 2 ^ 8)) + int_of_byte (byte_of_Z p) = p mod 65536.
Proof.
  rewrite !byte_of_Z_value. change (2 ^ 8) with 256.
  change 65536 with (256 * 256). rewrite Z.rem_mul_r by lia. lia.
Qed.

(** X4. The port is read from the last two bytes of its field: a
    well-formed payload whose port field holds any 32-bit value [p] decodes
    to the port [p mod 65536]. *)
Theorem decodeHostPortPayload_port_mod (h : string) (p : Z) (rest : list byte) :
  (String.length h <= 255)%nat -> 0 <= p < 2 ^ 32 ->
  decodeHostPortPayload (Some (direct_tcpip_payload h p rest)) = Ret (h, p mod 65536, None).
Proof.
  intros Hh _.
  set (l := direct_tcpip_payload h p rest).
  assert (E3 : nth_error l 3 = Some (byte_of_Z (Z.of_nat (String.length h))))
    by reflexivity.
  pose proof (length_byte_of_Z _ Hh) as En.
  destruct (decode_long l _ E3) as (hi & lo & Ehi & Elo & D).
  { rewrite En. unfold l. rewrite length_payload. lia. }
  rewrite En in Ehi, Elo, D. unfold l in Ehi, Elo.
  rewrite nth_error_port_field in Ehi by lia.
  rewrite nth_error_port_field in Elo by lia.
  cbn [uint32_bytes nth_error] in Ehi, Elo.
  assert (hi = byte_of_Z (p / 2 ^ 8)) as -> by congruence.
  assert (lo = byte_of_Z p) as -> by congruence.
  rewrite D. unfold l. rewrite host_of_payload, string_of_list_byte_of_string.
  rewrite port_low_16_bits. reflexivity.
Qed.

(** The port field holding 65536 + 443 gives the port 443. *)
Lemma decodeHostPortPayload_port_mod_witness :
  decodeHostPortPayload (Some (direct_tcpip_payload "ab" 65979 [])) = Ret ("ab"%string, 443, None).
Proof.
  apply (decodeHostPortPayload_port_mod "ab" 65979 []); simpl; lia.
Defined.

(** ** Loading the allow-list: properties *)

Lemma skip_line_entry (b : list byte) : skip_line b = Ret (negb (entry_line b)).
Proof.
  destruct b as [|b0 rest]; [reflexivity|].
  unfold skip_line. cbn [len].
  replace (Z.of_nat (List.length (b0 :: rest)) =? 0) with false
    by (symmetry; apply Z.eqb_neq; simpl List.length; lia).
  assert (I0 : index (Some (b0 :: rest)) 0 = Ret b0) by exact (index_Some (b0 :: rest) 0 b0 eq_refl).
  rewrite I0. cbn [bind go_monad entry_line]. now rewrite negb_involutive.
Qed.

Lemma scan_destinations_filter (ls : list (list byte)) (out : list string) :
  scan_destinations ls out = Ret (out ++ map string_of_bytes (filter entry_line ls)).
Proof.
  revert out. induction ls as [|b rest IH]; intros out.
  - cbn [scan_destinations filter map]. now rewrite app_nil_r.
  - cbn [scan_destinations filter]. rewrite skip_line_entry. cbn [bind go_monad].
    destruct (entry_line b); cbn [negb map].
    + rewrite IH, <- app_assoc. reflexivity.
    + apply IH.
Qed.

Lemma loadDestinations_opened (fs : FileSystem) (name : string) (f : File) :
  fs name = inl f ->
  loadDestinations fs name
  = Ret (map string_of_bytes (filter entry_line (lines f)), scan_err f).
Proof.
  intros F. unfold loadDestinations. rewrite F, scan_destinations_filter. reflexivity.
Qed.

(** X5. [loadDestinations] never indexes an empty line and never panics.
    When the file opens, it returns, with the error of the scanner if there
    is one, exactly the lines that are not empty and do not start with [#],
    unchanged and in the order of the file; when it does not open, it
    returns no entry and the error of the open. *)
Theorem loadDestinations_entries (fs : FileSystem) (name : string) :
  loadDestinations fs name
  = match fs name with
    | inr err => Ret ([], Some err)
    | inl f => Ret (map string_of_bytes (filter entry_line (lines f)), scan_err f)
    end.
Proof.
  unfold loadDestinations. destruct (fs name) as [f | err]; [| reflexivity].
  rewrite scan_destinations_filter. reflexivity.
Qed.





(** X7. The allow-list a file gives: a destination is permitted under the
    loaded list if and only if either the file has no line that is an entry
    (every line is empty or starts with [#]), in which case every
    destination is permitted, or the destination is, byte for byte, a line
    of the file that is an entry. *)
Theorem loadDestinations_permits (fs : FileSystem) (name : string) (f : File) :
  fs name = inl f ->
  exists ss : list string,
    loadDestinations fs name = Ret (ss, scan_err f)
    /\ forall d : string,
         destination_permitted d ss = true
         <-> (filter entry_line (lines f) = []
              \/ exists b : list byte,
                   In b (lines f) /\ entry_line b = true /\ string_of_bytes b = d).
Proof.
  intros F. exists (map string_of_bytes (filter entry_line (lines f))).
  split; [exact (loadDestinations_opened _ _ _ F)|].
  intros d. destruct (filter entry_line (lines f)) as [|b0 kept] eqn:E.
  - split; [intros _; left; reflexivity | intros _; reflexivity].
  - cbn [map]. rewrite destination_permitted_nonempty, allowed_loop_In.
    change (string_of_bytes b0 :: map string_of_bytes kept)
      with (map string_of_bytes (b0 :: kept)).
    rewrite <- E. rewrite in_map_iff. split.
    + intros (b & Eb & Hb). apply filter_In in Hb. right. exists b. tauto.
    + intros [X | (b & Hb & Eb & Ed)]; [rewrite E in X; discriminate X|].
      exists b. split; [exact Ed | apply filter_In; tauto].
Qed.

(** A file of comments and blank lines permits every destination; a file
    with the entry [10.0.0.5:443] does not permit [10.0.0.5:80]. *)
Lemma loadDestinations_permits_witness :
  (exists ss : list string,
      loadDestinations
        (fun _ => inl {| lines := map list_byte_of_string ["# none"; ""]%string;
                         scan_err := None |}) "allowed"
      = Ret (ss, None)
      /\ destination_permitted "10.0.0.5:80" ss = true)
  /\ (exists ss : list string,
         loadDestinations
           (fun _ => inl {| lines := map list_byte_of_string ["10.0.0.5:443"]%string;
                            scan_err := None |}) "allowed"
         = Ret (ss, None)
         /\ destination_permitted "10.0.0.5:80" ss <> true).
Proof.
  split.
  - destruct (loadDestinations_permits
                (fun _ => inl {| lines := map list_byte_of_string ["# none"; ""]%string;
                                 scan_err := None |}) "allowed" _ eq_refl)
      as (ss & L & P).
    exists ss. split; [exact L|]. apply P. left. reflexivity.
  - destruct (loadDestinations_permits
                (fun _ => inl {| lines := map list_byte_of_string ["10.0.0.5:443"]%string;
                                 scan_err := None |}) "allowed" _ eq_refl)
      as (ss & L & P).
    exists ss. split; [exact L|]. intros X. apply P in X.
    destruct X as [X | (b & Hb & _ & Ed)]; [vm_compute in X; discriminate X|].
    destruct Hb as [<- | []]. vm_compute in Ed. discriminate Ed.
Defined.

(** ** The forwarding handler: further properties *)

Lemma DiscardRequests_trace (reqs : list Request) :
  DiscardRequests reqs
  = IO (map (fun req => EvReply req false) (filter WantReply reqs)) (Ret tt).
Proof.
  induction reqs as [|req rest IH]; [reflexivity|].
  cbn [DiscardRequests filter]. rewrite IH.
  destruct (WantReply req); reflexivity.
Qed.

Lemma writes_to_write (to : endpoint) (data : list byte) (t : list event) :
  writes_to to (EvWrite to data :: t) = data :: writes_to to t.
Proof. destruct to; reflexivity. Qed.

Lemma writes_to_other (to other : endpoint) (data : list byte) (t : list event) :
  other <> to -> writes_to other (EvWrite to data :: t) = writes_to other t.
Proof. destruct to, other; intros Hne; try reflexivity; contradiction. Qed.

Lemma writes_to_read (to from : endpoint) (data : list byte) (t : list event) :
  writes_to to (EvRead from data :: t) = writes_to to t.
Proof. reflexivity. Qed.

(** The copy into an endpoint: it only reads and writes, what it writes is
    an initial run of the chunks of its source, and all of them when no
    write fails; it then returns the error its source ended on. *)
Lemma copy_loop_Write (to : endpoint) (dst : Stream) (from : endpoint)
  (chunks : list (list byte)) (last : option error) (written : Z) :
  exists (t : list event) (n : Z) (e : option error) (m : nat),
    copy_loop (Write_ to dst) from chunks last written = IO t (Ret (n, e))
    /\ forallb is_relay_call t = true
    /\ writes_to to t = firstn m chunks
    /\ (forall other : endpoint, other <> to -> writes_to other t = [])
    /\ ((forall d, In d chunks -> write_err dst d = None) ->
        writes_to to t = chunks /\ e = last).
Proof.
  revert written. induction chunks as [|data rest IH]; intros written.
  - exists [], written, last, 0%nat. repeat split; reflexivity.
  - cbn [copy_loop]. unfold Write_ at 1.
    cbn [bind io_monad emit ret outcome trace app].
    destruct (write_err dst data) as [ew|] eqn:W.
    + exists [EvRead from data; EvWrite to data], written, (Some ew), 1%nat.
      cbn [bind io_monad emit ret outcome trace app].
      split; [reflexivity|]. split; [reflexivity|].
      split; [rewrite writes_to_read, writes_to_write; reflexivity|].
      split.
      * intros other Hne. rewrite writes_to_read. now rewrite writes_to_other.
      * intros Hall. rewrite (Hall data) in W by (left; reflexivity). discriminate W.
    + destruct (IH (written + Z.of_nat (List.length data)))
        as (t & n & e & m & E & R & Wt & Wo & Wall).
      exists (EvRead from data :: EvWrite to data :: t), n, e, (S m).
      rewrite E. cbn [bind io_monad emit ret outcome trace app].
      split; [reflexivity|]. split; [exact R|].
      split; [rewrite writes_to_read, writes_to_write, Wt; reflexivity|].
      split.
      * intros other Hne. rewrite writes_to_read, writes_to_other by exact Hne.
        apply Wo. exact Hne.
      * intros Hall. destruct Wall as [Wc We].
        { intros d Hd. apply Hall. right. exact Hd. }
        split; [| exact We]. rewrite writes_to_read, writes_to_write, Wc. reflexivity.
Qed.

(** The five ways [handleDial] ends. *)
Lemma handleDial_cases (net : Network) (newChannel : NewChannel)
  (allowedDestinations : list string) :
  (decodeHostPortPayload (ExtraData newChannel)
   = Ret (EmptyString, 0, Some invalid_payload_size)
   /\ handleDial net newChannel allowedDestinations = IO [] (Ret (Some invalid_payload_size)))
  \/ exists (host : string) (port : Z) (rconn : Stream) (oe : option error),
       decodeHostPortPayload (ExtraData newChannel) = Ret (host, port, None)
       /\ net (JoinHostPort host (Itoa port)) = (rconn, oe)
       /\ ((destination_permitted (JoinHostPort host (Itoa port)) allowedDestinations = false
            /\ handleDial net newChannel allowedDestinations
               = IO [EvReject Prohibited "connection to this address is prohibited"]
                    (Ret (reject_err newChannel)))
           \/ (destination_permitted (JoinHostPort host (Itoa port)) allowedDestinations = true
               /\ ((exists e : error,
                       oe = Some e
                       /\ handleDial net newChannel allowedDestinations
                          = IO [EvDial "tcp" (JoinHostPort host (Itoa port)) 10000000000;
                                EvReject ConnectionFailed "connection failed"]
                               (Ret (reject_err newChannel)))
                   \/ (exists e : error,
                          oe = None /\ accept_err newChannel = Some e
                          /\ handleDial net newChannel allowedDestinations
                             = IO [EvDial "tcp" (JoinHostPort host (Itoa port)) 10000000000;
                                   EvAccept; EvClose Destination]
                                  (Ret (Some e)))
                   \/ (exists (n : Z) (err : option error),
                          oe = None /\ accept_err newChannel = None
                          /\ outcome (io_Copy (Write_ Destination rconn) Client
                                        (channel newChannel)) = Ret (n, err)
                          /\ handleDial net newChannel allowedDestinations
                             = IO (EvDial "tcp" (JoinHostPort host (Itoa port)) 10000000000
                                   :: EvAccept
                                   :: EvGo (trace (DiscardRequests (requests newChannel)))
                                   :: EvGo (trace (io_Copy (Write_ Client (channel newChannel))
                                                     Destination rconn))
                                   :: trace (io_Copy (Write_ Destination rconn) Client
                                               (channel newChannel))
                                   ++ [EvClose Client; EvClose Destination])
                                  (Ret err))))).
Proof.
  destruct (decode_cases (ExtraData newChannel)) as [D | (host & port & D)].
  - left. split; [exact D|]. unfold handleDial. rewrite D. reflexivity.
  - right. destruct (net (JoinHostPort host (Itoa port))) as [rconn oe] eqn:N.
    exists host, port, rconn, oe. split; [exact D|]. split; [exact N|].
    rewrite (handleDial_decoded _ _ _ _ _ D). cbv zeta.
    destruct (destination_permitted (JoinHostPort host (Itoa port)) allowedDestinations);
      [right; split; [reflexivity|] | left; split; reflexivity].
    unfold DialTimeout. cbn [bind io_monad emit outcome trace ret app]. rewrite N.
    destruct oe as [e|]; [left; exists e; split; reflexivity|].
    right. unfold Accept, defer. cbn [bind io_monad emit outcome trace ret app].
    destruct (accept_err newChannel) as [e|] eqn:A.
    + left. exists e. repeat split; reflexivity.
    + right. unfold io_Copy.
      destruct (copy_loop_Write Destination rconn Client (incoming (channel newChannel))
                  (read_err (channel newChannel)) 0) as (t3 & n & err & m3 & E3 & _).
      destruct (copy_loop_Write Client (channel newChannel) Destination (incoming rconn)
                  (read_err rconn) 0) as (t2 & n2 & e2 & m2 & E2 & _).
      exists n, err. rewrite E3, E2, DiscardRequests_trace.
      split; [reflexivity|]. split; [reflexivity|]. split; [reflexivity|].
      unfold go_, Close. cbn [bind io_monad emit outcome trace ret app].
      rewrite app_nil_r, <- app_assoc. reflexivity.
Qed.

Lemma all_calls_relay (t : list event) :
  forallb is_relay_call t = true -> all_calls t = t.
Proof.
  induction t as [|e t IH]; [reflexivity|].
  cbn [forallb]. intros R. apply andb_true_iff in R. destruct R as [Re Rt].
  change (all_calls (e :: t)) with (calls_of e ++ all_calls t).
  rewrite (IH Rt). destruct e; try discriminate Re; reflexivity.
Qed.

Lemma filter_relay (f : event -> bool) (t : list event) :
  (forall e, is_relay_call e = true -> f e = false) ->
  forallb is_relay_call t = true -> filter f t = [].
Proof.
  intros Hf. induction t as [|e t IH]; [reflexivity|].
  cbn [forallb filter]. intros R. apply andb_true_iff in R. destruct R as [Re Rt].
  rewrite (Hf e Re). exact (IH Rt).
Qed.

Lemma forallb_relay (f : event -> bool) (t : list event) :
  (forall e, is_relay_call e = true -> f e = true) ->
  forallb is_relay_call t = true -> forallb f t = true.
Proof.
  intros Hf R. apply forallb_forall. intros e He.
  apply Hf. exact (proj1 (forallb_forall _ _) R e He).
Qed.

Lemma relay_DiscardRequests (reqs : list Request) :
  forallb is_relay_call (trace (DiscardRequests reqs)) = true.
Proof.
  rewrite DiscardRequests_trace. cbn [trace]. apply forallb_forall.
  intros e He. apply in_map_iff in He. destruct He as (r & <- & _). reflexivity.
Qed.

Lemma relay_io_Copy (to : endpoint) (dst : Stream) (from : endpoint) (src : Stream) :
  forallb is_relay_call (trace (io_Copy (Write_ to dst) from src)) = true.
Proof.
  unfold io_Copy.
  destruct (copy_loop_Write to dst from (incoming src) (read_err src) 0)
    as (t & n & e & m & E & R & _).
  rewrite E. exact R.
Qed.


Lemma writes_to_replies (to : endpoint) (reqs : list Request) :
  writes_to to (trace (DiscardRequests reqs)) = [].
Proof.
  rewrite DiscardRequests_trace. cbn [trace].
  induction (filter WantReply reqs) as [|r l IH]; [reflexivity | exact IH].
Qed.

(** A relay that was set up: its trace, its calls with those of its two
    goroutines, and what each copy wrote. *)
Lemma handleDial_relaying (net : Network) (newChannel : NewChannel)
  (allowedDestinations : list string) (host : string) (port : Z) (rconn : Stream) :
  decodeHostPortPayload (ExtraData newChannel) = Ret (host, port, None) ->
  destination_permitted (JoinHostPort host (Itoa port)) allowedDestinations = true ->
  net (JoinHostPort host (Itoa port)) = (rconn, None) ->
  accept_err newChannel = None ->
  exists (t1 t2 t3 : list event) (err : option error) (m2 m3 : nat),
    handleDial net newChannel allowedDestinations
    = IO (EvDial "tcp" (JoinHostPort host (Itoa port)) 10000000000
          :: EvAccept :: EvGo t1 :: EvGo t2 :: t3 ++ [EvClose Client; EvClose Destination])
         (Ret err)
    /\ all_calls (trace (handleDial net newChannel allowedDestinations))
       = [EvDial "tcp" (JoinHostPort host (Itoa port)) 10000000000; EvAccept; EvGo t1]
         ++ t1 ++ [EvGo t2] ++ t2 ++ t3 ++ [EvClose Client; EvClose Destination]
    /\ forallb is_relay_call t1 = true
    /\ forallb is_relay_call t2 = true
    /\ forallb is_relay_call t3 = true
    /\ (forall to : endpoint, writes_to to t1 = [])
    /\ writes_to Client t2 = firstn m2 (incoming rconn)
    /\ writes_to Destination t2 = []
    /\ ((forall d, In d (incoming rconn) -> write_err (channel newChannel) d = None) ->
        writes_to Client t2 = incoming rconn)
    /\ writes_to Destination t3 = firstn m3 (incoming (channel newChannel))
    /\ writes_to Client t3 = []
    /\ ((forall d, In d (incoming (channel newChannel)) -> write_err rconn d = None) ->
        writes_to Destination t3 = incoming (channel newChannel)
        /\ err = read_err (channel newChannel)).
Proof.
  intros D P N A.
  destruct (copy_loop_Write Destination rconn Client (incoming (channel newChannel))
              (read_err (channel newChannel)) 0)
    as (t3 & n3 & err & m3 & E3 & R3 & W3 & O3 & F3).
  destruct (copy_loop_Write Client (channel newChannel) Destination (incoming rconn)
              (read_err rconn) 0)
    as (t2 & n2 & e2 & m2 & E2 & R2 & W2 & O2 & F2).
  pose proof (relay_DiscardRequests (requests newChannel)) as R1.
  pose proof (fun to => writes_to_replies to (requests newChannel)) as W1.
  set (t1 := trace (DiscardRequests (requests newChannel))) in *.
  assert (E : handleDial net newChannel allowedDestinations
              = IO (EvDial "tcp" (JoinHostPort host (Itoa port)) 10000000000
                    :: EvAccept :: EvGo t1 :: EvGo t2
                    :: t3 ++ [EvClose Client; EvClose Destination])
                   (Ret err)).
  { destruct (handleDial_cases net newChannel allowedDestinations)
      as [[D' _] | (host' & port' & rconn' & oe & D' & N' & C)]; [congruence|].
    assert (host' = host) as -> by congruence.
    assert (port' = port) as -> by congruence.
    rewrite N in N'. injection N' as <- <-.
    destruct C as [[P' _] | [_ [(e & X & _) | [(e & _ & X & _) | (n & err' & _ & _ & O & E)]]]];
      try congruence.
    unfold io_Copy in O, E. rewrite E3 in O, E. rewrite E2 in E.
    cbn [trace outcome] in O, E. fold t1 in E.
    assert (err' = err) as -> by congruence. exact E. }
  exists t1, t2, t3, err, m2, m3.
  split; [exact E|]. rewrite E. cbn [trace].
  split.
  { change (all_calls (?d :: EvAccept :: EvGo t1 :: EvGo t2 :: ?t))
      with ([d; EvAccept; EvGo t1] ++ all_calls t1 ++ [EvGo t2] ++ all_calls t2 ++ all_calls t).
    rewrite all_calls_app, (all_calls_relay _ R1), (all_calls_relay _ R2),
      (all_calls_relay _ R3). reflexivity. }
  repeat split; try assumption.
  - apply O2. discriminate.
  - intros Hall. apply (F2 Hall).
  - apply O3. discriminate.
  - apply F3. assumption.
  - apply F3. assumption.
Qed.

(** Every dial of the handler is a permitted one. *)
Lemma handleDial_calls_permitted (net : Network) (newChannel : NewChannel)
  (allowedDestinations : list string) :
  forallb (dial_permitted allowedDestinations)
    (all_calls (trace (handleDial net newChannel allowedDestinations))) = true.
Proof.
  destruct (handleDial_cases net newChannel allowedDestinations)
    as [[_ E] | (host & port & rconn & oe & D & N &
                 [[P E] | [P [(e & _ & E) | [(e & _ & _ & E) | (n & err & -> & A & _)]]]])].
  - rewrite E. reflexivity.
  - rewrite E. reflexivity.
  - rewrite E. cbn [trace all_calls flat_map calls_of app forallb dial_permitted].
    rewrite P. reflexivity.
  - rewrite E. cbn [trace all_calls flat_map calls_of app forallb dial_permitted].
    rewrite P. reflexivity.
  - destruct (handleDial_relaying _ _ _ _ _ _ D P N A)
      as (t1 & t2 & t3 & err' & m2 & m3 & _ & C & R1 & R2 & R3 & _).
    rewrite C, !forallb_app.
    rewrite (forallb_relay (dial_permitted allowedDestinations) t1),
      (forallb_relay (dial_permitted allowedDestinations) t2),
      (forallb_relay (dial_permitted allowedDestinations) t3);
      try assumption; try (intros [] X; (discriminate X || reflexivity)).
    cbn [forallb dial_permitted]. rewrite P. reflexivity.
Qed.

(** X8. Whatever the channel open, the allow-list and the network, every
    dial the handler makes, a goroutine of it included, is over TCP with the
    ten-second timeout to an address the allow-list permits, and it makes at
    most one. *)
Theorem handleDial_dials_permitted (net : Network) (newChannel : NewChannel)
  (allowedDestinations : list string) :
  forallb (dial_permitted allowedDestinations)
    (all_calls (trace (handleDial net newChannel allowedDestinations))) = true
  /\ (List.length (filter is_dial
        (all_calls (trace (handleDial net newChannel allowedDestinations)))) <= 1)%nat.
Proof.
  split; [apply handleDial_calls_permitted|].
  destruct (handleDial_cases net newChannel allowedDestinations)
    as [[_ E] | (host & port & rconn & oe & D & N &
                 [[P E] | [P [(e & _ & E) | [(e & _ & _ & E) | (n & err & -> & A & _)]]]])];
    try (rewrite E; simpl; lia).
  destruct (handleDial_relaying _ _ _ _ _ _ D P N A)
    as (t1 & t2 & t3 & err' & m2 & m3 & _ & C & R1 & R2 & R3 & _).
  rewrite C, !filter_app.
  rewrite (filter_relay is_dial t1), (filter_relay is_dial t2),
    (filter_relay is_dial t3);
    try assumption; try (intros [] X; (discriminate X || reflexivity)).
  simpl. lia.
Qed.

Lemma relay_not_In (e : event) (t : list event) :
  is_relay_call e = false -> forallb is_relay_call t = true -> ~ In e t.
Proof.
  intros He R HIn. rewrite (proj1 (forallb_forall _ _) R e HIn) in He. discriminate He.
Qed.

(** X9. The handler accepts a channel open only after it has dialed the
    candidate destination of the payload, the allow-list permitting it, and
    the dial has succeeded: a trace that holds an accept starts with that
    dial, followed by the accept. *)
Theorem handleDial_accept_after_dial (net : Network) (newChannel : NewChannel)
  (allowedDestinations : list string) :
  In EvAccept (all_calls (trace (handleDial net newChannel allowedDestinations))) ->
  exists (host : string) (port : Z) (rconn : Stream) (t : list event),
    decodeHostPortPayload (ExtraData newChannel) = Ret (host, port, None)
    /\ destination_permitted (JoinHostPort host (Itoa port)) allowedDestinations = true
    /\ net (JoinHostPort host (Itoa port)) = (rconn, None)
    /\ trace (handleDial net newChannel allowedDestinations)
       = EvDial "tcp" (JoinHostPort host (Itoa port)) 10000000000 :: EvAccept :: t.
Proof.
  intros HIn.
  destruct (handleDial_cases net newChannel allowedDestinations)
    as [[_ E] | (host & port & rconn & oe & D & N &
                 [[P E] | [P [(e & _ & E) | [(e & -> & _ & E) | (n & err & -> & A & _)]]]])].
  - rewrite E in HIn. destruct HIn.
  - rewrite E in HIn. destruct HIn as [X | []]. discriminate X.
  - rewrite E in HIn. destruct HIn as [X | [X | []]]; discriminate X.
  - exists host, port, rconn, [EvClose Destination]. rewrite E. auto.
  - destruct (handleDial_relaying _ _ _ _ _ _ D P N A)
      as (t1 & t2 & t3 & err' & m2 & m3 & E & _).
    exists host, port, rconn,
      (EvGo t1 :: EvGo t2 :: t3 ++ [EvClose Client; EvClose Destination]).
    rewrite E. auto.
Qed.

(** A permitted destination that answers: the trace starts with the dial and
    the accept. *)
Lemma handleDial_accept_after_dial_witness :
  exists (host : string) (port : Z) (rconn : Stream) (t : list event),
    decodeHostPortPayload (Some (direct_tcpip_payload "10.0.0.5" 443 []))
    = Ret (host, port, None)
    /\ destination_permitted (JoinHostPort host (Itoa port)) ["10.0.0.5:443"%string] = true
    /\ (fun _ : string =>
          ({| incoming := []; read_err := None;
              write_err := fun _ => None; close_err := None |}, @None error))
         (JoinHostPort host (Itoa port))
       = (rconn, None)
    /\ trace (handleDial
         (fun _ => ({| incoming := []; read_err := None;
                       write_err := fun _ => None; close_err := None |}, None))
         {| ChannelType := "direct-tcpip";
            ExtraData := Some (direct_tcpip_payload "10.0.0.5" 443 []);
            reject_err := None; accept_err := None;
            channel := {| incoming := []; read_err := None;
                          write_err := fun _ => None; close_err := None |};
            requests := [] |}
         ["10.0.0.5:443"%string])
       = EvDial "tcp" (JoinHostPort host (Itoa port)) 10000000000 :: EvAccept :: t.
Proof.
  match goal with
  | |- context [handleDial ?n ?c ?a] =>
      apply (handleDial_accept_after_dial n c a)
  end.
  right. left. reflexivity.
Defined.

(** X10. A channel open whose payload decodes gets exactly one answer from
    the handler, an accept or a rejection, and never both; one whose payload
    does not decode gets none. *)
Theorem handleDial_one_answer (net : Network) (newChannel : NewChannel)
  (allowedDestinations : list string) :
  List.length (filter is_answer
    (all_calls (trace (handleDial net newChannel allowedDestinations))))
  = match decodeHostPortPayload (ExtraData newChannel) with
    | Ret (_, _, None) => 1%nat
    | _ => 0%nat
    end.
Proof.
  destruct (handleDial_cases net newChannel allowedDestinations)
    as [[D E] | (host & port & rconn & oe & D & N &
                 [[P E] | [P [(e & _ & E) | [(e & _ & _ & E) | (n & err & -> & A & _)]]]])];
    rewrite D; try (rewrite E; reflexivity).
  destruct (handleDial_relaying _ _ _ _ _ _ D P N A)
    as (t1 & t2 & t3 & err' & m2 & m3 & _ & C & R1 & R2 & R3 & _).
  rewrite C, !filter_app.
  rewrite (filter_relay is_answer t1), (filter_relay is_answer t2),
    (filter_relay is_answer t3);
    try assumption; try (intros [] X; (discriminate X || reflexivity)).
  reflexivity.
Qed.

(** X11. Once the dial has succeeded the socket is closed when the handler
    leaves, and so is the channel once it was accepted, whatever the relay
    met: the trace ends with the close of the channel, if accepted, then the
    close of the socket, and nothing is closed before.  When no dial
    succeeded the handler closes nothing. *)
Theorem handleDial_closes (net : Network) (newChannel : NewChannel)
  (allowedDestinations : list string) :
  (forall (host : string) (port : Z) (rconn : Stream),
      decodeHostPortPayload (ExtraData newChannel) = Ret (host, port, None) ->
      destination_permitted (JoinHostPort host (Itoa port)) allowedDestinations = true ->
      net (JoinHostPort host (Itoa port)) = (rconn, None) ->
      exists t : list event,
        trace (handleDial net newChannel allowedDestinations)
        = t ++ (match accept_err newChannel with
                | None => [EvClose Client; EvClose Destination]
                | Some _ => [EvClose Destination]
                end)
        /\ filter is_close (all_calls t) = [])
  /\ ((forall (host : string) (port : Z) (rconn : Stream),
          decodeHostPortPayload (ExtraData newChannel) = Ret (host, port, None) ->
          destination_permitted (JoinHostPort host (Itoa port)) allowedDestinations = true ->
          net (JoinHostPort host (Itoa port)) <> (rconn, None)) ->
      filter is_close (all_calls (trace (handleDial net newChannel allowedDestinations))) = []).
Proof.
  split.
  - intros host port rconn D P N.
    destruct (accept_err newChannel) as [e|] eqn:A.
    + destruct (handleDial_cases net newChannel allowedDestinations)
        as [[D' _] | (host' & port' & rconn' & oe & D' & N' & C)]; [congruence|].
      assert (host' = host) as -> by congruence.
      assert (port' = port) as -> by congruence.
      rewrite N in N'. injection N' as <- <-.
      destruct C as [[P' _] | [_ [(e' & X & _) | [(e' & _ & _ & E) | (n & err' & _ & X & _)]]]];
        try congruence.
      exists [EvDial "tcp" (JoinHostPort host (Itoa port)) 10000000000; EvAccept].
      rewrite E. split; reflexivity.
    + destruct (handleDial_relaying _ _ _ _ _ _ D P N A)
        as (t1 & t2 & t3 & err' & m2 & m3 & E & _ & R1 & R2 & R3 & _).
      exists (EvDial "tcp" (JoinHostPort host (Itoa port)) 10000000000
              :: EvAccept :: EvGo t1 :: EvGo t2 :: t3).
      rewrite E. split; [reflexivity|].
      change (all_calls (?d :: EvAccept :: EvGo t1 :: EvGo t2 :: t3))
        with ([d; EvAccept; EvGo t1] ++ all_calls t1 ++ [EvGo t2] ++ all_calls t2
              ++ all_calls t3).
      rewrite (all_calls_relay _ R1), (all_calls_relay _ R2), (all_calls_relay _ R3).
      rewrite !filter_app.
      rewrite (filter_relay is_close t1), (filter_relay is_close t2),
        (filter_relay is_close t3);
        try assumption; try (intros [] X; (discriminate X || reflexivity)).
      reflexivity.
  - intros Hno.
    destruct (handleDial_cases net newChannel allowedDestinations)
      as [[_ E] | (host & port & rconn & oe & D & N &
                   [[P E] | [P [(e & _ & E) | [(e & -> & _ & _) | (n & err & -> & _)]]]])];
      try (rewrite E; reflexivity);
      exfalso; exact (Hno host port rconn D P N).
Qed.

(** A relay between a client that sends two chunks and a destination that
    refuses the second: the channel is closed, then the socket. *)
Lemma handleDial_closes_witness :
  exists t : list event,
    trace (handleDial
       (fun _ => ({| incoming := [[x68; x69]]; read_err := None;
                     write_err := fun d => match d with
                                           | [x62] => Some (net_error "broken pipe")
                                           | _ => None
                                           end;
                     close_err := None |}, None))
       {| ChannelType := "direct-tcpip";
          ExtraData := Some (direct_tcpip_payload "10.0.0.5" 443 []);
          reject_err := None; accept_err := None;
          channel := {| incoming := [[x61]; [x62]; [x63]]; read_err := None;
                        write_err := fun _ => None; close_err := None |};
          requests := [] |}
       [])
    = t ++ [EvClose Client; EvClose Destination]
    /\ filter is_close (all_calls t) = [].
Proof.
  match goal with
  | |- context [handleDial ?n ?c ?a] =>
      exact (proj1 (handleDial_closes n c a) "10.0.0.5"%string 443 _
               eq_refl eq_refl eq_refl)
  end.
Defined.




(** X13. When the dial has succeeded and the accept of the channel open
    then fails, the handler closes the socket it dialed and returns the
    error of the accept: it starts no relay. *)
Theorem handleDial_accept_failed (net : Network) (newChannel : NewChannel)
  (allowedDestinations : list string) (host : string) (port : Z) (rconn : Stream)
  (e : error) :
  decodeHostPortPayload (ExtraData newChannel) = Ret (host, port, None) ->
  destination_permitted (JoinHostPort host (Itoa port)) allowedDestinations = true ->
  net (JoinHostPort host (Itoa port)) = (rconn, None) ->
  accept_err newChannel = Some e ->
  handleDial net newChannel allowedDestinations
  = IO [EvDial "tcp" (JoinHostPort host (Itoa port)) 10000000000;
        EvAccept; EvClose Destination]
       (Ret (Some e)).
Proof.
  intros D P N A.
  destruct (handleDial_cases net newChannel allowedDestinations)
    as [[D' _] | (host' & port' & rconn' & oe & D' & N' & C)]; [congruence|].
  assert (host' = host) as -> by congruence.
  assert (port' = port) as -> by congruence.
  rewrite N in N'. injection N' as <- <-.
  destruct C as [[P' _] | [_ [(e' & X & _) | [(e' & _ & A' & E) | (n & err' & _ & X & _)]]]];
    congruence.
Qed.

Lemma handleDial_accept_failed_witness :
  trace (handleDial
       (fun _ => ({| incoming := []; read_err := None;
                     write_err := fun _ => None; close_err := None |}, None))
       {| ChannelType := "direct-tcpip";
          ExtraData := Some (direct_tcpip_payload "10.0.0.5" 443 []);
          reject_err := None; accept_err := Some (ssh_error "channel closed");
          channel := {| incoming := []; read_err := None;
                        write_err := fun _ => None; close_err := None |};
          requests := [] |}
       [])
  = [EvDial "tcp" "10.0.0.5:443" 10000000000; EvAccept; EvClose Destination].
Proof.
  match goal with
  | |- context [handleDial ?n ?c ?a] =>
      rewrite (handleDial_accept_failed n c a "10.0.0.5"%string 443 _
                 (ssh_error "channel closed") eq_refl eq_refl eq_refl eq_refl)
  end.
  reflexivity.
Defined.

(** ** The session handler: further properties *)

Lemma handleSession_refused (newChannel : NewChannel) (e : error) :
  accept_err newChannel = Some e ->
  handleSession newChannel = IO [EvAccept] (Ret (Some e)).
Proof.
  intros A. unfold handleSession, Accept.
  cbn [bind io_monad emit ret outcome trace app]. rewrite A. reflexivity.
Qed.

Lemma handleSession_calls (newChannel : NewChannel) :
  forallb is_session_call (all_calls (trace (handleSession newChannel))) = true.
Proof.
  destruct (accept_err newChannel) as [e|] eqn:A.
  - rewrite (handleSession_refused _ e A). reflexivity.
  - rewrite (all_calls_session _ A). apply forallb_forall. intros e HIn.
    destruct HIn as [<- | [<- | HIn]]; try reflexivity.
    apply in_app_or in HIn. destruct HIn as [HIn | HIn].
    + apply in_map_iff in HIn. destruct HIn as (r & <- & _). reflexivity.
    + apply in_app_or in HIn. destruct HIn as [HIn | [<- | []]]; [| reflexivity].
      apply in_map_iff in HIn. destruct HIn as (d & <- & _). reflexivity.
Qed.

Lemma handleSession_returns (newChannel : NewChannel) :
  exists r : option error, outcome (handleSession newChannel) = Ret r.
Proof.
  destruct (accept_err newChannel) as [e|] eqn:A.
  - rewrite (handleSession_refused _ e A). eexists. reflexivity.
  - rewrite (handleSession_accepted _ A). eexists. reflexivity.
Qed.

(** X14. Whatever the channel open, the session handler answers it once,
    with an accept and never a rejection, and none of its calls is a dial,
    a write or a close of anything but the channel.  When the accept fails
    it makes no other call, starts no goroutine and returns the error of
    the accept. *)
Theorem handleSession_any_channel (newChannel : NewChannel) :
  filter is_answer (all_calls (trace (handleSession newChannel))) = [EvAccept]
  /\ forallb is_session_call (all_calls (trace (handleSession newChannel))) = true
  /\ (forall e : error,
         accept_err newChannel = Some e ->
         handleSession newChannel = IO [EvAccept] (Ret (Some e))).
Proof.
  split; [| split; [apply handleSession_calls | apply handleSession_refused]].
  destruct (accept_err newChannel) as [e|] eqn:A.
  - rewrite (handleSession_refused _ e A). reflexivity.
  - rewrite (all_calls_session _ A). cbn [filter is_answer]. rewrite !filter_app.
    assert (F1 : forall rs, filter is_answer (map session_reply rs) = []).
    { intros rs. induction rs as [|r rs' IH]; [reflexivity | exact IH]. }
    assert (F2 : forall cs, filter is_answer (map (EvRead Client) cs) = []).
    { intros cs. induction cs as [|d cs' IH]; [reflexivity | exact IH]. }
    rewrite F1, F2. reflexivity.
Qed.

Lemma handleSession_any_channel_witness :
  handleSession
    {| ChannelType := "session"; ExtraData := None;
       reject_err := None; accept_err := Some (ssh_error "channel closed");
       channel := {| incoming := [[x61]]; read_err := None;
                     write_err := fun _ => None; close_err := None |};
       requests := [ {| Type_ := "shell"; WantReply := true; Payload := [] |} ] |}
  = IO [EvAccept] (Ret (Some (ssh_error "channel closed"))).
Proof.
  match goal with
  | |- handleSession ?c = _ =>
      exact (proj2 (proj2 (handleSession_any_channel c)) _ eq_refl)
  end.
Defined.

(** ** The connection handler: properties *)

Lemma handleDial_returns (net : Network) (newChannel : NewChannel)
  (allowedDestinations : list string) :
  exists r : option error,
    outcome (handleDial net newChannel allowedDestinations) = Ret r.
Proof.
  destruct (handleDial_cases net newChannel allowedDestinations)
    as [[_ E] | (host & port & rconn & oe & D & N &
                 [[P E] | [P [(e & _ & E) | [(e & _ & _ & E) | (n & err & _ & _ & _ & E)]]]])];
    rewrite E; eexists; reflexivity.
Qed.

Lemma serve_channels_dispatch (net : Network) (chans : list NewChannel)
  (allowedDestinations : list string) :
  serve_channels net chans allowedDestinations
  = IO (map (dispatch net allowedDestinations) chans) (Ret tt).
Proof.
  induction chans as [|c rest IH]; [reflexivity|].
  cbn [serve_channels map]. rewrite IH. unfold dispatch, go_, Reject.
  destruct (String.eqb (ChannelType c) "session").
  - destruct (handleSession_returns c) as [r ->]. reflexivity.
  - destruct (String.eqb (ChannelType c) "direct-tcpip").
    + destruct (handleDial_returns net c allowedDestinations) as [r ->]. reflexivity.
    + reflexivity.
Qed.

(** The trace of a connection whose handshake succeeded. *)
Lemma handleConn_served (net : Network) (nConn : Stream) (conn : ServerConn)
  (allowedDestinations : list string) :
  handshake_err conn = None ->
  handleConn net nConn conn allowedDestinations
  = IO (EvGo (trace (DiscardRequests (reqs conn)))
        :: map (dispatch net allowedDestinations) (chans conn)
        ++ [EvClose Transport])
       (Ret None).
Proof.
  intros Hs. unfold handleConn. rewrite Hs.
  rewrite serve_channels_dispatch, DiscardRequests_trace.
  unfold defer, go_, Close. cbn [bind io_monad emit ret outcome trace app].
  rewrite app_nil_r. reflexivity.
Qed.

(** X15. When the handshake fails, the connection handler closes the
    connection and returns the error, and no channel open is looked at.
    When it succeeds, the handler starts the goroutine that discards the
    global requests, then treats the channel opens in their order, each on
    its own: a goroutine running the session handler for the type
    [session], one running the forwarding handler for [direct-tcpip], and
    for any other type the rejection [UnknownChannelType]; it closes the
    connection last and returns no error. *)
Theorem handleConn_dispatch (net : Network) (nConn : Stream) (conn : ServerConn)
  (allowedDestinations : list string) :
  handleConn net nConn conn allowedDestinations
  = match handshake_err conn with
    | Some e => IO [EvClose Transport] (Ret (Some e))
    | None =>
        IO (EvGo (trace (DiscardRequests (reqs conn)))
            :: map (dispatch net allowedDestinations) (chans conn)
            ++ [EvClose Transport])
           (Ret None)
    end.
Proof.
  destruct (handshake_err conn) as [e|] eqn:Hs.
  - unfold handleConn. rewrite Hs. reflexivity.
  - apply handleConn_served. exact Hs.
Qed.

Lemma session_call_permitted (allowedDestinations : list string) (e : event) :
  is_session_call e = true -> dial_permitted allowedDestinations e = true.
Proof. destruct e; intros X; (discriminate X || reflexivity). Qed.

Lemma session_calls_no_dial (t : list event) :
  forallb is_session_call t = true -> filter is_dial t = [].
Proof.
  induction t as [|e t IH]; [reflexivity|].
  cbn [forallb filter]. intros S. apply andb_true_iff in S. destruct S as [Se St].
  destruct e; try discriminate Se; exact (IH St).
Qed.

Lemma dispatch_permitted (net : Network) (allowedDestinations : list string)
  (c : NewChannel) :
  forallb (dial_permitted allowedDestinations)
    (calls_of (dispatch net allowedDestinations c)) = true.
Proof.
  unfold dispatch. destruct (String.eqb (ChannelType c) "session").
  - cbn [calls_of forallb dial_permitted andb].
    apply forallb_forall. intros e He. apply session_call_permitted.
    exact (proj1 (forallb_forall _ _) (handleSession_calls c) e He).
  - destruct (String.eqb (ChannelType c) "direct-tcpip"); [| reflexivity].
    cbn [calls_of forallb dial_permitted andb]. apply handleDial_calls_permitted.
Qed.

Lemma handleConn_calls_permitted (net : Network) (nConn : Stream) (conn : ServerConn)
  (allowedDestinations : list string) :
  forallb (dial_permitted allowedDestinations)
    (all_calls (trace (handleConn net nConn conn allowedDestinations))) = true.
Proof.
  destruct (handshake_err conn) as [e|] eqn:Hs.
  - unfold handleConn. rewrite Hs. reflexivity.
  - rewrite (handleConn_served _ _ _ _ Hs). cbn [trace].
    pose proof (relay_DiscardRequests (reqs conn)) as R.
    generalize dependent (trace (DiscardRequests (reqs conn))). intros t R.
    change (all_calls (EvGo t :: ?u)) with ((EvGo t :: all_calls t) ++ all_calls u).
    rewrite (all_calls_relay _ R), all_calls_app, !forallb_app.
    cbn [forallb dial_permitted andb].
    rewrite (forallb_relay (dial_permitted allowedDestinations) t
               ltac:(intros [] X; (discriminate X || reflexivity)) R).
    rewrite andb_true_r. cbn [andb].
    induction (chans conn) as [|c rest IH]; [reflexivity|].
    cbn [map]. change (all_calls (?d :: ?u)) with (calls_of d ++ all_calls u).
    rewrite forallb_app, dispatch_permitted, IH. reflexivity.
Qed.

(** X16. Whatever the client sends on a connection (any number of channel
    opens of any type and payload), every dial made on its behalf is over
    TCP with the ten-second timeout to an address the allow-list permits;
    a channel open of type [session] or of an unknown type causes no
    dial. *)
Theorem handleConn_dials_permitted (net : Network) (nConn : Stream) (conn : ServerConn)
  (allowedDestinations : list string) :
  forallb (dial_permitted allowedDestinations)
    (all_calls (trace (handleConn net nConn conn allowedDestinations))) = true
  /\ (forall c : NewChannel,
         ChannelType c <> "direct-tcpip"%string ->
         filter is_dial (calls_of (dispatch net allowedDestinations c)) = []).
Proof.
  split; [apply handleConn_calls_permitted|].
  intros c Hc. unfold dispatch.
  destruct (String.eqb (ChannelType c) "session").
  - cbn [calls_of filter is_dial].
    exact (session_calls_no_dial _ (handleSession_calls c)).
  - destruct (String.eqb_spec (ChannelType c) "direct-tcpip"); [contradiction | reflexivity].
Qed.

(** A channel open of type [x11]: it is rejected, and causes no dial. *)
Lemma handleConn_dials_permitted_witness :
  filter is_dial
    (calls_of (dispatch
       (fun _ => ({| incoming := []; read_err := None;
                     write_err := fun _ => None; close_err := None |}, None))
       []
       {| ChannelType := "x11";
          ExtraData := Some (direct_tcpip_payload "10.0.0.5" 443 []);
          reject_err := None; accept_err := None;
          channel := {| incoming := []; read_err := None;
                        write_err := fun _ => None; close_err := None |};
          requests := [] |})) = [].
Proof.
  match goal with
  | |- context [dispatch ?n ?a ?c] =>
      apply (proj2 (handleConn_dials_permitted n (channel c)
                      {| handshake_err := None; chans := [c]; reqs := [] |} a) c)
  end.
  discriminate.
Defined.

(** ** The key check: further properties *)

Section AuthMore.

Context {K : Type} `{PublicKey K}.
Variable ParseAuthorizedKey : list byte -> K + error.
Variable ConnMetadata : Type.

(** X17. An authorized-keys file with no line is not an error: the
    construction succeeds, and the function it returns refuses every key
    with the error [no keys matched]. *)
Theorem authChecker_empty_file (fs : FileSystem) (name : string) (f : File) :
  fs name = inl f -> lines f = [] -> scan_err f = None ->
  exists cb : ConnMetadata -> K -> option Permissions * option error,
    authChecker ParseAuthorizedKey ConnMetadata fs name = (Some cb, None)
    /\ forall (conn : ConnMetadata) (key : K), cb conn key = (None, Some no_keys_matched).
Proof.
  intros F L S. exists (check_key ConnMetadata []). split.
  - unfold authChecker. rewrite F, L, S. reflexivity.
  - intros conn key. reflexivity.
Qed.

Lemma scan_keys_app (good rest : list (list byte)) (acc : list (list byte)) :
  (forall line, In line good -> exists pk, ParseAuthorizedKey line = inl pk) ->
  exists acc' : list (list byte),
    scan_keys ParseAuthorizedKey (good ++ rest) acc
    = scan_keys ParseAuthorizedKey rest acc'.
Proof.
  revert acc. induction good as [|line good IH]; intros acc Hgood.
  - exists acc. reflexivity.
  - destruct (Hgood line (or_introl eq_refl)) as [pk P].
    destruct (IH (acc ++ [Marshal pk])) as [acc' E].
    { intros l Hl. apply Hgood. right. exact Hl. }
    exists acc'. cbn [app scan_keys]. rewrite P. exact E.
Qed.

(** X18. The construction stops at the first line the parser refuses and
    returns the error of that line: the lines after it are not parsed, and
    an error of the scanner does not replace it. *)
Theorem authChecker_first_refused (fs : FileSystem) (name : string) (f : File)
  (good rest : list (list byte)) (bad : list byte) (e : error) :
  fs name = inl f ->
  lines f = good ++ bad :: rest ->
  (forall line, In line good -> exists pk, ParseAuthorizedKey line = inl pk) ->
  ParseAuthorizedKey bad = inr e ->
  authChecker ParseAuthorizedKey ConnMetadata fs name = (None, Some e).
Proof.
  intros F L Hgood P. unfold authChecker. rewrite F, L.
  destruct (scan_keys_app good (bad :: rest) [] Hgood) as [acc' ->].
  cbn [scan_keys]. rewrite P. reflexivity.
Qed.

(** X19. The function [authChecker] returns depends on the loaded keys as
    a set only: two lists of keys with the same elements, in any order and
    with any repetitions, give the same answer on every key. *)
Theorem check_key_set (pkeys pkeys' : list (list byte)) (conn : ConnMetadata) (key : K) :
  (forall k : list byte, In k pkeys <-> In k pkeys') ->
  check_key ConnMetadata pkeys conn key = check_key ConnMetadata pkeys' conn key.
Proof.
  intros Hset. unfold check_key.
  destruct (key_loop (Marshal key) pkeys) eqn:E, (key_loop (Marshal key) pkeys') eqn:E';
    try reflexivity; exfalso.
  - apply key_loop_In in E. apply Hset in E. apply key_loop_In in E. congruence.
  - apply key_loop_In in E'. apply Hset in E'. apply key_loop_In in E'. congruence.
Qed.

End AuthMore.

Lemma authChecker_empty_file_witness :
  exists cb : unit -> list byte -> option Permissions * option error,
    authChecker (H := raw_key) parse_raw_key unit
      (fun _ => inl {| lines := []; scan_err := None |}) "authorized_keys"
    = (Some cb, None)
    /\ forall (conn : unit) (key : list byte), cb conn key = (None, Some no_keys_matched).
Proof.
  apply (authChecker_empty_file (H := raw_key) parse_raw_key unit _ _
           {| lines := []; scan_err := None |}); reflexivity.
Defined.

(** A key, a blank line, and a scanner that ended on an error: the error
    returned is that of the blank line. *)
Lemma authChecker_first_refused_witness :
  authChecker (H := raw_key) parse_raw_key unit
    (fun _ => inl {| lines := [[x61; x62]; []; [x63]];
                     scan_err := Some (bufio_error "token too long") |})
    "authorized_keys"
  = (None, Some (ssh_error "ssh: no key found")).
Proof.
  apply (authChecker_first_refused (H := raw_key) parse_raw_key unit _ _
           {| lines := [[x61; x62]; []; [x63]];
              scan_err := Some (bufio_error "token too long") |}
           [[x61; x62]] [[x63]] []).
  - reflexivity.
  - reflexivity.
  - intros line [<- | []]. exists [x61; x62]. reflexivity.
  - reflexivity.
Defined.

Lemma check_key_set_witness :
  check_key (H := raw_key) unit [[x61]; [x62]; [x61]] tt [x62]
  = check_key (H := raw_key) unit [[x62]; [x61]] tt [x62].
Proof.
  apply (check_key_set (H := raw_key) unit). intros k. simpl. tauto.
Defined.

(** ** Starting the server: properties *)

Lemma loadDestinations_returns (fs : FileSystem) (name : string) :
  exists (ss : list string) (err : option error),
    loadDestinations fs name = Ret (ss, err).
Proof.
  unfold loadDestinations. destruct (fs name) as [f | e].
  - rewrite scan_destinations_filter. eexists. eexists. reflexivity.
  - eexists. eexists. reflexivity.
Qed.

Lemma handleConn_returns (net : Network) (nConn : Stream) (conn : ServerConn)
  (allowedDestinations : list string) :
  exists r : option error,
    outcome (handleConn net nConn conn allowedDestinations) = Ret r.
Proof.
  destruct (handshake_err conn) as [e|] eqn:Hs.
  - unfold handleConn. rewrite Hs. eexists. reflexivity.
  - rewrite (handleConn_served _ _ _ _ Hs). eexists. reflexivity.
Qed.

Lemma served_calls_app (t u : list run_event) :
  served_calls (t ++ u) = served_calls t ++ served_calls u.
Proof.
  induction t as [|e t IH]; [reflexivity|].
  destruct e; cbn [app served_calls]; rewrite ?IH, <- ?app_assoc; reflexivity.
Qed.

Section RunFacts.

Context {K : Type} `{PublicKey K}.
Variable ParseAuthorizedKey : list byte -> K + error.
Variable ConnMetadata : Type.
Variable Signer : Type.
Variable ParsePrivateKey : list byte -> Signer + error.

Lemma accept_loop_permitted (net : Network) (config : @ServerConfig K ConnMetadata Signer)
  (destinations : list string)
  (results : list (Stream * (@ServerConfig K ConnMetadata Signer -> ServerConn) + error)) :
  forallb (dial_permitted destinations)
    (served_calls (fst (accept_loop ConnMetadata Signer net config destinations results)))
  = true.
Proof.
  induction results as [|[[conn handshake] | err] rest IH]; try reflexivity.
  cbn [accept_loop].
  destruct (handleConn_returns net conn (handshake config) destinations) as [r ->].
  destruct (accept_loop ConnMetadata Signer net config destinations rest) as [t res].
  cbn [fst served_calls] in *. rewrite forallb_app, IH, handleConn_calls_permitted.
  reflexivity.
Qed.

Lemma serve_permitted (w : @World K ConnMetadata Signer) (args : runArgs)
  (config : @ServerConfig K ConnMetadata Signer) (destinations : list string) :
  forallb (dial_permitted destinations)
    (served_calls (fst (serve ConnMetadata Signer w args config destinations))) = true.
Proof.
  unfold serve. destruct (listen w (Addr args)); [reflexivity|].
  pose proof (accept_loop_permitted (network w) config destinations (accepts w)) as L.
  destruct (accept_loop ConnMetadata Signer (network w) config destinations (accepts w))
    as [t res].
  cbn [fst] in L. destruct res; cbn [fst served_calls]; try exact L.
  rewrite served_calls_app. cbn [served_calls]. rewrite app_nil_r. exact L.
Qed.

Lemma serve_listens (w : @World K ConnMetadata Signer) (args : runArgs)
  (config : @ServerConfig K ConnMetadata Signer) (destinations : list string)
  (proto address : string) :
  In (RunListen proto address)
     (fst (serve ConnMetadata Signer w args config destinations)) ->
  exists t, fst (serve ConnMetadata Signer w args config destinations)
            = RunListen "tcp" (Addr args) :: t.
Proof.
  intros _. unfold serve. destruct (listen w (Addr args)); [eexists; reflexivity|].
  destruct (accept_loop ConnMetadata Signer (network w) config destinations (accepts w))
    as [t res].
  destruct res; eexists; reflexivity.
Qed.

(** X20. The server listens only once everything it loads at startup has
    loaded: when the trace of [run] holds a listen, the authorized-keys
    file, the host key and, if one is configured, the allow-list file were
    loaded without error, and the listen is the first call, on TCP at the
    configured address.  A failed load makes [run] return its error with
    no call made; the error of the scanner of the allow-list file counts as
    one, whatever entries were read before it. *)
Theorem run_listens_after_loading (w : @World K ConnMetadata Signer) (args : runArgs) :
  (forall proto address : string,
      In (RunListen proto address)
         (fst (run ParseAuthorizedKey ConnMetadata Signer ParsePrivateKey w args)) ->
      (exists auth, authChecker ParseAuthorizedKey ConnMetadata (files w) (AuthKeysFile args)
                    = (auth, None))
      /\ (exists hostKey, loadHostKey ConnMetadata Signer ParsePrivateKey w (HostKeyFile args)
                          = inl hostKey)
      /\ (Destinations args = ""%string
          \/ exists ss, loadDestinations (files w) (Destinations args) = Ret (ss, None))
      /\ exists t, fst (run ParseAuthorizedKey ConnMetadata Signer ParsePrivateKey w args)
                   = RunListen "tcp" (Addr args) :: t)
  /\ (forall auth e,
         authChecker ParseAuthorizedKey ConnMetadata (files w) (AuthKeysFile args)
         = (auth, Some e) ->
         run ParseAuthorizedKey ConnMetadata Signer ParsePrivateKey w args = ([], Returned e))
  /\ (forall auth e,
         authChecker ParseAuthorizedKey ConnMetadata (files w) (AuthKeysFile args)
         = (auth, None) ->
         loadHostKey ConnMetadata Signer ParsePrivateKey w (HostKeyFile args) = inr e ->
         run ParseAuthorizedKey ConnMetadata Signer ParsePrivateKey w args = ([], Returned e))
  /\ (forall auth hostKey ss e,
         authChecker ParseAuthorizedKey ConnMetadata (files w) (AuthKeysFile args)
         = (auth, None) ->
         loadHostKey ConnMetadata Signer ParsePrivateKey w (HostKeyFile args) = inl hostKey ->
         Destinations args <> ""%string ->
         loadDestinations (files w) (Destinations args) = Ret (ss, Some e) ->
         run ParseAuthorizedKey ConnMetadata Signer ParsePrivateKey w args = ([], Returned e)).
Proof.
  split; [| split; [| split]].
  - intros proto address. unfold run.
    destruct (authChecker ParseAuthorizedKey ConnMetadata (files w) (AuthKeysFile args))
      as [auth [e|]]; [intros []|].
    destruct (loadHostKey ConnMetadata Signer ParsePrivateKey w (HostKeyFile args))
      as [hostKey | e]; [| intros []].
    destruct (String.eqb_spec (Destinations args) "") as [Ed | Ed].
    + intros HIn. apply serve_listens in HIn. repeat split; eauto.
    + destruct (loadDestinations_returns (files w) (Destinations args)) as (ss & err & L).
      rewrite L. destruct err as [e|]; [intros []|].
      intros HIn. apply serve_listens in HIn. repeat split; eauto.
  - intros auth e A. unfold run. rewrite A. reflexivity.
  - intros auth e A Hk. unfold run. rewrite A, Hk. reflexivity.
  - intros auth hostKey ss e A Hk Ed L. unfold run. rewrite A, Hk, L.
    destruct (String.eqb_spec (Destinations args) ""); [contradiction | reflexivity].
Qed.

(** X21. Every dial made on behalf of any connection the server accepts is
    over TCP with the ten-second timeout to an address permitted by the
    allow-list the server started with: the empty list, which permits every
    address, when no allow-list file is configured, and otherwise the
    entries loaded from the file. *)
Theorem run_dials_permitted (w : @World K ConnMetadata Signer) (args : runArgs) :
  exists destinations : list string,
    ((Destinations args = ""%string /\ destinations = [])
     \/ (Destinations args <> ""%string
         /\ exists err, loadDestinations (files w) (Destinations args)
                        = Ret (destinations, err)))
    /\ forallb (dial_permitted destinations)
         (served_calls
            (fst (run ParseAuthorizedKey ConnMetadata Signer ParsePrivateKey w args)))
       = true.
Proof.
  destruct (String.eqb_spec (Destinations args) "") as [Ed | Ed].
  - exists []. split; [left; split; [exact Ed | reflexivity]|].
    unfold run. rewrite Ed. cbn [String.eqb].
    destruct (authChecker ParseAuthorizedKey ConnMetadata (files w) (AuthKeysFile args))
      as [auth [e|]]; [reflexivity|].
    destruct (loadHostKey ConnMetadata Signer ParsePrivateKey w (HostKeyFile args))
      as [hostKey | e]; [| reflexivity].
    apply serve_permitted.
  - destruct (loadDestinations_returns (files w) (Destinations args)) as (ss & err & L).
    exists ss. split; [right; split; [exact Ed | exists err; exact L]|].
    unfold run. rewrite L.
    destruct (authChecker ParseAuthorizedKey ConnMetadata (files w) (AuthKeysFile args))
      as [auth [e|]]; [reflexivity|].
    destruct (loadHostKey ConnMetadata Signer ParsePrivateKey w (HostKeyFile args))
      as [hostKey | e]; [| reflexivity].
    destruct (String.eqb_spec (Destinations args) ""); [contradiction|].
    destruct err as [e|]; [reflexivity|]. apply serve_permitted.
Qed.

(** X22. Once listening, the server takes the connections the listener
    delivers in their order and starts, for each, one goroutine running the
    connection handler with the configuration and the allow-list it started
    with; what a connection does, a failed handshake included, does not
    stop it.  The first error of the listener ends it: it closes the
    listener and returns that error, and takes no further connection. *)
Theorem serve_until_accept_error (w : @World K ConnMetadata Signer) (args : runArgs)
  (config : @ServerConfig K ConnMetadata Signer) (destinations : list string)
  (conns : list (Stream * (@ServerConfig K ConnMetadata Signer -> ServerConn)))
  (e : error)
  (rest : list (Stream * (@ServerConfig K ConnMetadata Signer -> ServerConn) + error)) :
  listen w (Addr args) = None ->
  accepts w = map inl conns ++ inr e :: rest ->
  serve ConnMetadata Signer w args config destinations
  = (RunListen "tcp" (Addr args)
     :: flat_map (fun c => [RunAccept;
                            RunGo (trace (handleConn (network w) (fst c) (snd c config)
                                            destinations))]) conns
     ++ [RunAccept; RunCloseListener],
     Returned e).
Proof.
  intros L A. unfold serve. rewrite L, A.
  assert (E : accept_loop ConnMetadata Signer (network w) config destinations
                (map inl conns ++ inr e :: rest)
              = (flat_map (fun c => [RunAccept;
                                     RunGo (trace (handleConn (network w) (fst c)
                                                     (snd c config) destinations))]) conns
                 ++ [RunAccept], Returned e)).
  { clear A. induction conns as [|[conn handshake] conns IH]; [reflexivity|].
    cbn [map app accept_loop flat_map fst snd].
    destruct (handleConn_returns (network w) conn (handshake config) destinations) as [r ->].
    rewrite IH. reflexivity. }
  rewrite E. rewrite <- app_assoc. reflexivity.
Qed.

End RunFacts.

(** The authorized-keys file cannot be opened: [run] returns the error and
    has not listened. *)
Lemma run_listens_after_loading_witness :
  run (H := raw_key) parse_raw_key unit (list byte) (fun b => inl b)
    {| files := fun _ => inr (os_error "no such file");
       read_file := fun _ => inl [x2d];
       listen := fun _ => None;
       accepts := [];
       network := fun _ => ({| incoming := []; read_err := None;
                               write_err := fun _ => None; close_err := None |}, None) |}
    default_args
  = ([], Returned (os_error "no such file")).
Proof.
  match goal with
  | |- run ?p ?c ?s ?pp ?w ?a = _ =>
      exact (proj1 (proj2 (run_listens_after_loading (H := raw_key) p c s pp w a))
               None (os_error "no such file") eq_refl)
  end.
Defined.

(** A connection whose handshake fails, then an error of the listener. *)
Lemma serve_until_accept_error_witness :
  serve (K := list byte) unit (list byte)
    {| files := fun _ => inr (os_error "no such file");
       read_file := fun _ => inl [x2d];
       listen := fun _ => None;
       accepts := [inl ({| incoming := []; read_err := None;
                           write_err := fun _ => None; close_err := None |},
                        fun _ => {| handshake_err := Some (ssh_error "handshake failed");
                                    chans := []; reqs := [] |});
                   inr (net_error "use of closed network connection")];
       network := fun _ => ({| incoming := []; read_err := None;
                               write_err := fun _ => None; close_err := None |}, None) |}
    default_args
    {| PublicKeyCallback := None; ServerVersion := "SSH-2.0-generic"; hostKeys := [] |}
    []
  = ([RunListen "tcp" "localhost:2022"; RunAccept; RunGo [EvClose Transport];
      RunAccept; RunCloseListener],
     Returned (net_error "use of closed network connection")).
Proof.
  match goal with
  | |- serve ?c ?s ?w ?a ?cfg ?d = _ =>
      rewrite (serve_until_accept_error (K := list byte) c s w a cfg d
                 [({| incoming := []; read_err := None;
                      write_err := fun _ => None; close_err := None |},
                   fun _ => {| handshake_err := Some (ssh_error "handshake failed");
                               chans := []; reqs := [] |})]
                 (net_error "use of closed network connection") [] eq_refl eq_refl)
  end.
  reflexivity.
Defined.
